(** * MaiConverter: the simai chart model, parser, exporter and time converter

    A shallow embedding of [maiconverter/simai.py] and
    [maiconverter/tool/time.py].

    Numbers.  Python [int] is [Z].  Python [float] is idealised as an exact
    rational [Q]: every operation is the exact one, so the development says
    nothing about NaN or infinities, and nothing about binary rounding but
    in one place.  That place is the difference of two measures inside
    [simai_get_rest], whose integer part is taken, so that rounding noise
    can change the result by a whole measure: there the operands are read
    as the doubles nearest to the rationals and the difference is rounded
    to a double ([b64], [float_sub]).

    Exceptions.  A function that may raise returns a [result]; a method that
    mutates the chart returns the chart after the call together with the
    outcome. *)

From Stdlib Require Import ZArith QArith Qpower Qround Qabs Qminmax List String Ascii Bool Lia Lqa.
From Stdlib Require Import Sorting.Sorted Sorting.Permutation.
From Stdlib Require Import DecimalString DecimalZ Zwf.
From Equations Require Import Equations.
Import ListNotations.

Local Open Scope string_scope.
Local Open Scope Z_scope.

(* ================================================================= *)
(** ** Python runtime: exceptions *)

Inductive PyExn : Type :=
| ValueError (msg : string)
| Exception (msg : string)
| TypeError
| AttributeError
| IndexError
| ZeroDivisionError.

Inductive result (A : Type) : Type :=
| Ok (a : A)
| Raise (e : PyExn).
Arguments Ok {A} a.
Arguments Raise {A} e.

Definition bind {A B : Type} (r : result A) (k : A -> result B) : result B :=
  match r with
  | Ok a => k a
  | Raise e => Raise e
  end.

Declare Scope py_scope.
Delimit Scope py_scope with py.
Notation "x <- c1 ;; c2" := (bind c1 (fun x => c2))
  (at level 61, c1 at next level, right associativity) : py_scope.

Definition is_ok {A : Type} (r : result A) : bool :=
  match r with Ok _ => true | Raise _ => false end.

Definition raises {A : Type} (r : result A) : Prop :=
  exists e, r = Raise e.

(* ================================================================= *)
(** ** Python runtime: numbers *)

(** [round(x)] on a float: nearest integer, ties to the even one. *)
Definition py_round (x : Q) : Z :=
  let n := Qnum x in
  let d := Z.pos (Qden x) in
  let f := n / d in
  let r2 := 2 * (n mod d) in
  if r2 <? d then f
  else if d <? r2 then f + 1
  else if Z.even f then f else f + 1.

(** [round(10000.0 * x) / 10000.0], the rounding applied at every
    construction and mutation boundary. *)
Definition round4 (x : Q) : Q := py_round (10000 * x)%Q # 10000.

(** [int(x)] on a float truncates toward zero. *)
Definition py_int (x : Q) : Z := Z.quot (Qnum x) (Z.pos (Qden x)).

(** [math.modf(x)]: the fractional and the integer part, both with the sign
    of [x]. *)
Definition modf (x : Q) : Q * Q :=
  let w := py_int x in ((x - inject_Z w)%Q, inject_Z w).

Definition Qlt_bool (a b : Q) : bool := negb (Qle_bool b a).

(* ================================================================= *)
(** ** Slide geometry *)

(** [simai_slide_dict]: the patterns that convert one to one. *)
Definition simai_slide_dict : list (string * Z) :=
  [ ("-", 1); ("p", 4); ("q", 5); ("s", 6); ("z", 7);
    ("v", 8); ("pp", 9); ("qq", 10); ("w", 13) ].

Definition simai_slide_patterns : list string :=
  [ "-"; "^"; ">"; "<"; "p"; "q"; "s"; "z"; "v"; "pp"; "qq"; "V"; "w" ].

Fixpoint dict_get (d : list (string * Z)) (k : string) : option Z :=
  match d with
  | [] => None
  | (k', v) :: d' => if String.eqb k' k then Some v else dict_get d' k
  end.

(** [{v: k for k, v in simai_slide_dict.items()}.get(pattern)] *)
Fixpoint inv_dict_get (d : list (string * Z)) (v : Z) : option string :=
  match d with
  | [] => None
  | (k, v') :: d' => if v' =? v then Some k else inv_dict_get d' v
  end.

Definition str_in (s : string) (l : list string) : bool :=
  existsb (String.eqb s) l.

Definition z_in (z : Z) (l : list Z) : bool := existsb (Z.eqb z) l.

Definition slide_distance (start_position end_position : Z) (is_cw : bool) : Z :=
  if is_cw then
    let end_ := if start_position >=? end_position
                then end_position + 8 else end_position in
    end_ - start_position
  else
    let start := if start_position <=? end_position
                 then start_position + 8 else start_position in
    start - end_position.

Definition slide_is_cw (start_position end_position : Z) : result bool :=
  let diff := Z.abs (end_position - start_position) in
  let other_diff := Z.abs (8 - diff) in
  if diff =? 4 then
    Raise (ValueError "Can't choose direction for a 180 degree angle.")
  else if ((end_position >? start_position) && (diff >? other_diff))
          || ((end_position <? start_position) && (diff <? other_diff))
       then Ok false
       else Ok true.

Definition top_list : list Z := [0; 1; 6; 7].

Definition simai_pattern_from_int (pattern start_position end_position : Z)
  : result (string * option Z) :=
  match inv_dict_get simai_slide_dict pattern with
  | Some dict_result => Ok (dict_result, None)
  | None =>
      if z_in pattern [2; 3] then
        let is_cw := pattern =? 3 in
        let distance := slide_distance start_position end_position is_cw in
        if distance <=? 3 then Ok ("^", None)
        else if (z_in start_position top_list && is_cw)
                || negb (z_in start_position top_list || is_cw)
             then Ok (">", None)
             else Ok ("<", None)
      else if z_in pattern [11; 12] then
        let reflect_position :=
          if pattern =? 11 then
            let r := start_position - 2 in
            if r <? 0 then r + 8 else r
          else
            let r := start_position + 2 in
            if r >? 7 then r - 8 else r in
        Ok ("V", Some reflect_position)
      else Raise (ValueError "Unknown pattern")
  end.

(* ================================================================= *)
(** ** The note model *)

(** The members of [NoteType] (module [note]) that this file uses. *)
Inductive NoteType : Type :=
| tap | break_tap | ex_tap | star | break_star | ex_star
| hold | ex_hold | touch_tap | touch_hold | complete_slide.

Definition NoteType_eqb (a b : NoteType) : bool :=
  match a, b with
  | tap, tap | break_tap, break_tap | ex_tap, ex_tap | star, star
  | break_star, break_star | ex_star, ex_star | hold, hold
  | ex_hold, ex_hold | touch_tap, touch_tap | touch_hold, touch_hold
  | complete_slide, complete_slide => true
  | _, _ => false
  end.

Definition NoteType_in (t : NoteType) (l : list NoteType) : bool :=
  existsb (NoteType_eqb t) l.

(** One constructor per subclass of [SimaiNote]; the first three fields
    are the ones of the base class. *)
Inductive SimaiNote : Type :=
| TapNote (measure : Q) (position : Z) (note_type : NoteType)
| HoldNote (measure : Q) (position : Z) (note_type : NoteType)
    (duration : Q)
| SlideNote (measure : Q) (position : Z) (note_type : NoteType)
    (duration : Q) (end_position : Z) (pattern : string) (delay : Q)
    (reflect_position : option Z)
| TouchTapNote (measure : Q) (position : Z) (note_type : NoteType)
    (is_firework : bool) (zone : string)
| TouchHoldNote (measure : Q) (position : Z) (note_type : NoteType)
    (is_firework : bool) (zone : string) (duration : Q).

Definition measure (n : SimaiNote) : Q :=
  match n with
  | TapNote m _ _ | HoldNote m _ _ _ | SlideNote m _ _ _ _ _ _ _
  | TouchTapNote m _ _ _ _ | TouchHoldNote m _ _ _ _ _ => m
  end.

Definition position (n : SimaiNote) : Z :=
  match n with
  | TapNote _ p _ | HoldNote _ p _ _ | SlideNote _ p _ _ _ _ _ _
  | TouchTapNote _ p _ _ _ | TouchHoldNote _ p _ _ _ _ => p
  end.

Definition note_type (n : SimaiNote) : NoteType :=
  match n with
  | TapNote _ _ t | HoldNote _ _ t _ | SlideNote _ _ t _ _ _ _ _
  | TouchTapNote _ _ t _ _ | TouchHoldNote _ _ t _ _ _ => t
  end.

Definition duration (n : SimaiNote) : option Q :=
  match n with
  | HoldNote _ _ _ d | SlideNote _ _ _ d _ _ _ _
  | TouchHoldNote _ _ _ _ _ d => Some d
  | _ => None
  end.

Definition end_position (n : SimaiNote) : option Z :=
  match n with SlideNote _ _ _ _ e _ _ _ => Some e | _ => None end.

Definition pattern (n : SimaiNote) : option string :=
  match n with SlideNote _ _ _ _ _ p _ _ => Some p | _ => None end.

Definition delay (n : SimaiNote) : option Q :=
  match n with SlideNote _ _ _ _ _ _ d _ => Some d | _ => None end.

Definition reflect_position (n : SimaiNote) : option Z :=
  match n with SlideNote _ _ _ _ _ _ _ r => r | _ => None end.

Definition zone (n : SimaiNote) : option string :=
  match n with
  | TouchTapNote _ _ _ _ z | TouchHoldNote _ _ _ _ z _ => Some z
  | _ => None
  end.

Definition is_firework (n : SimaiNote) : option bool :=
  match n with
  | TouchTapNote _ _ _ f _ | TouchHoldNote _ _ _ f _ _ => Some f
  | _ => None
  end.

(** [note.measure = m] *)
Definition set_measure (m : Q) (n : SimaiNote) : SimaiNote :=
  match n with
  | TapNote _ p t => TapNote m p t
  | HoldNote _ p t d => HoldNote m p t d
  | SlideNote _ p t d e pt dl r => SlideNote m p t d e pt dl r
  | TouchTapNote _ p t f z => TouchTapNote m p t f z
  | TouchHoldNote _ p t f z d => TouchHoldNote m p t f z d
  end.

(** *** The constructors ([__init__]) *)

Definition SimaiHoldNote (measure : Q) (position : Z) (duration : Q)
    (is_ex : bool) : SimaiNote :=
  let measure := round4 measure in
  let duration := round4 duration in
  if is_ex then HoldNote measure position ex_hold duration
  else HoldNote measure position hold duration.

Definition SimaiTapNote (measure : Q) (position : Z)
    (is_break is_star is_ex : bool) : SimaiNote :=
  let measure := round4 measure in
  if is_ex && is_star then TapNote measure position ex_star
  else if is_ex && negb is_star then TapNote measure position ex_tap
  else if is_star && is_break then TapNote measure position break_star
  else if is_star && negb is_break then TapNote measure position star
  else if is_break then TapNote measure position break_tap
  else TapNote measure position tap.

Definition SimaiSlideNote (measure : Q) (start_position end_position : Z)
    (duration : Q) (pattern : string) (delay : Q)
    (reflect_position : option Z) : result SimaiNote :=
  let measure := round4 measure in
  let duration := round4 duration in
  let delay := round4 delay in
  if Qle_bool duration 0 then Raise (ValueError "Duration is not positive")
  else if Qlt_bool delay 0 then Raise (ValueError "Delay is negative")
  else if negb (str_in pattern simai_slide_patterns)
       then Raise (ValueError "Unknown slide pattern")
  else if String.eqb pattern "V"
          && match reflect_position with None => true | Some _ => false end
       then Raise (Exception "Slide pattern 'V' is given without reflection point")
  else Ok (SlideNote measure start_position complete_slide duration
                     end_position pattern delay reflect_position).

Definition SimaiTouchTapNote (measure : Q) (position : Z) (zone : string)
    (is_firework : bool) : SimaiNote :=
  let measure := round4 measure in
  TouchTapNote measure position touch_tap is_firework zone.

Definition SimaiTouchHoldNote (measure : Q) (position : Z) (zone : string)
    (duration : Q) (is_firework : bool) : SimaiNote :=
  let measure := round4 measure in
  let duration := round4 duration in
  TouchHoldNote measure position touch_hold is_firework zone duration.

(** A tempo marker.  [bpm] is whatever number the caller passed: an [int]
    or a [float]. *)
Inductive PyNum : Type :=
| PyInt (z : Z)
| PyFloat (q : Q).

Definition num_val (x : PyNum) : Q :=
  match x with PyInt z => inject_Z z | PyFloat q => q end.

Record BPMEvent : Type := mkBPM { bpm_measure : Q; bpm : PyNum }.

Definition SimaiBPM (measure : Q) (bpm : PyNum) : result BPMEvent :=
  if Qle_bool (num_val bpm) 0 then Raise (ValueError "BPM is not positive")
  else Ok (mkBPM (round4 measure) bpm).

(** *** Encoding a slide's pattern *)

Definition simai_pattern_to_int (slide_note : SimaiNote)
  : result (option Z) :=
  match slide_note with
  | SlideNote _ position _ _ end_position pattern _ reflect_position =>
      if negb (str_in pattern simai_slide_patterns) then Ok None
      else
        match dict_get simai_slide_dict pattern with
        | Some dict_result => Ok (Some dict_result)
        | None =>
            if String.eqb pattern "^" then
              (is_cw <- slide_is_cw position end_position ;;
               Ok (Some (if is_cw then 3 else 2)))%py
            else if String.eqb pattern ">" then
              Ok (Some (if z_in position top_list then 3 else 2))
            else if String.eqb pattern "<" then
              Ok (Some (if z_in position top_list then 2 else 3))
            else if String.eqb pattern "V" then
              match reflect_position with
              | Some r =>
                  (is_cw <- slide_is_cw position r ;;
                   Ok (Some (if is_cw then 12 else 11)))%py
              | None => Raise TypeError
              end
            else Ok None
        end
  | _ => Raise AttributeError
  end.

(* ================================================================= *)
(** ** Python runtime: [fractions.Fraction] *)

(** [Fraction(numerator, denominator)]: the normalised quotient. *)
Definition Fraction (numerator denominator : Z) : result Q :=
  if denominator =? 0 then Raise ZeroDivisionError
  else if denominator <? 0
       then Ok (Qred (- numerator # Z.to_pos (- denominator)))
       else Ok (Qred (numerator # Z.to_pos denominator)).

(** The [while True] loop of [Fraction.limit_denominator]; it returns the
    variables [p0, q0, p1, q1] as they are at the [break]. *)
(** The order of the loop's termination argument: the remainders
    decrease and stay above zero. *)
Definition Zwf_0_wf : WellFounded (Zwf 0) :=
  Acc_intro_generator 64 (Zwf_well_founded 0).
#[local] Opaque Zwf_0_wf.
#[local] Existing Instance Zwf_0_wf.

Equations? limit_denominator_loop (max_denominator p0 q0 p1 q1 n d : Z)
  : result (Z * Z * Z * Z) by wf d (Zwf 0) :=
  limit_denominator_loop max_denominator p0 q0 p1 q1 n d
    with Z_le_gt_dec d 0 := {
    | left _ => Raise ZeroDivisionError
    | right _ =>
        let a := n / d in
        let q2 := q0 + a * q1 in
        if q2 >? max_denominator then Ok (p0, q0, p1, q1)
        else limit_denominator_loop max_denominator
               p1 q1 (p0 + a * p1) q2 d (n - a * d) }.
Proof.
  pose proof (Z.mod_pos_bound n d ltac:(lia)) as Hb.
  rewrite Z.mod_eq in Hb by lia. unfold Zwf. nia.
Qed.

(** [Fraction(x).limit_denominator(max_denominator)] for a float [x]. *)
Definition limit_denominator (x : Q) (max_denominator : Z) : result Q :=
  if max_denominator <? 1
  then Raise (ValueError "max_denominator should be at least 1")
  else
    let self := Qred x in
    if Z.pos (Qden self) <=? max_denominator then Ok self
    else
      (st <- limit_denominator_loop max_denominator 0 1 1 0
               (Qnum self) (Z.pos (Qden self)) ;;
       let '(p0, q0, p1, q1) := st in
       if q1 =? 0 then Raise ZeroDivisionError
       else
         let k := (max_denominator - q0) / q1 in
         bound1 <- Fraction (p0 + k * p1) (q0 + k * q1) ;;
         bound2 <- Fraction p1 q1 ;;
         if Qle_bool (Qabs (bound2 - self)) (Qabs (bound1 - self))
         then Ok bound2 else Ok bound1)%py.

(* ================================================================= *)
(** ** Python runtime: binary64 rounding *)

(** [floor(log2(x))] for a positive [x]. *)
Definition floor_log2 (x : Q) : Z :=
  let e0 := Z.log2 (Qnum x) - Z.log2 (Z.pos (Qden x)) in
  if Qle_bool (2 ^ e0) x then e0 else e0 - 1.

(** The double nearest to [x], ties to the even significand: [x] is
    scaled to a significand in [2^52, 2^53], which is rounded to an
    integer.  The exponent range is not bounded, so there is neither
    overflow nor underflow. *)
Definition b64 (x : Q) : Q :=
  if Qeq_bool x 0 then 0
  else
    let a := Qabs x in
    let e := floor_log2 a - 52 in
    let r := (inject_Z (py_round (a / 2 ^ e)) * 2 ^ e)%Q in
    if Qlt_bool x 0 then (- r)%Q else r.

(** [a - b] on floats: the exact difference, rounded. *)
Definition float_sub (a b : Q) : Q := b64 (a - b).

(* ================================================================= *)
(** ** The rest calculator *)

(** The two measures are floats, here the doubles nearest to the
    rationals given, and their difference is the float one: on
    [(1.01, 2.01)] it is [0.9999999999999998], not [1]. *)
Definition simai_get_rest (current_measure next_measure : Q)
  : result (option (Z * Z * Z)) :=
  let current_measure := b64 current_measure in
  let next_measure := b64 next_measure in
  if Qlt_bool next_measure current_measure
  then Raise (ValueError "Current measure is greater than next.")
  else if Qeq_bool next_measure current_measure then Ok None
  else
    let difference := modf (float_sub next_measure current_measure) in
    let whole := snd difference in
    (decimal_fraction <- limit_denominator (fst difference) 1000 ;;
     let amount := Qnum decimal_fraction in
     let divisor := Z.pos (Qden decimal_fraction) in
     Ok (Some (py_int whole, divisor, amount)))%py.

(* ================================================================= *)
(** ** Python runtime: lists *)

(** [list.sort] / [sorted]: a stable sort.  [le a b] is [key(a) <= key(b)];
    an element is placed before the first one of the sorted rest that it
    does not exceed, so equal keys keep their input order. *)
Fixpoint sort_insert {A : Type} (le : A -> A -> bool) (x : A) (l : list A)
  : list A :=
  match l with
  | [] => [x]
  | y :: l' => if le x y then x :: l else y :: sort_insert le x l'
  end.

Fixpoint py_sorted {A : Type} (le : A -> A -> bool) (l : list A) : list A :=
  match l with
  | [] => []
  | x :: l' => sort_insert le x (py_sorted le l')
  end.

(** The comparison of two elements by a float-valued [key]. *)
Definition key_le {A : Type} (key : A -> Q) (a b : A) : bool :=
  Qle_bool (key a) (key b).

(** Ascending order of the keys. *)
Definition key_ordered {A : Type} (key : A -> Q) (a b : A) : Prop :=
  (key a <= key b)%Q.

(** [list(set(l))] followed by [.sort()] on floats: ascending, one
    representative for each value. *)
Fixpoint set_insert (x : Q) (l : list Q) : list Q :=
  match l with
  | [] => [x]
  | y :: l' =>
      if Qeq_bool x y then l
      else if Qle_bool x y then x :: l
      else y :: set_insert x l'
  end.

Fixpoint sorted_set (l : list Q) : list Q :=
  match l with
  | [] => []
  | x :: l' => set_insert x (sorted_set l')
  end.

(* ================================================================= *)
(** ** tool/time.py: the measure/time converter *)

(** Float division. *)
Definition py_div (a b : Q) : result Q :=
  if Qeq_bool b 0 then Raise ZeroDivisionError else Ok (a / b)%Q.

(** [math.isclose(a, b, abs_tol=0.0005)] with the default
    [rel_tol = 1e-09]. *)
Definition isclose (a b : Q) : bool :=
  Qle_bool (Qabs (a - b))
           (Qmax ((1 # 1000000000) * Qmax (Qabs a) (Qabs b)) (5 # 10000)).

Definition _check_bpms (bpms : list (Q * Q)) : result unit :=
  if (List.length bpms =? 0)%nat then Raise (ValueError "No BPMs given.")
  else if negb (existsb (fun _ => true)
                  (filter (fun x => Qle_bool 0 (fst x) && Qle_bool (fst x) 1)
                          bpms))
       then Raise (ValueError "No starting BPM defined.")
  else Ok tt.

(** [bpms.sort(key=lambda x: x[0])] *)
Definition sort_bpms (bpms : list (Q * Q)) : list (Q * Q) :=
  py_sorted (key_le fst) bpms.

(** The code of [measure_to_second] that follows its [for] loop. *)
Definition measure_to_second_end
    (measure previous_measure previous_bpm previous_time : Q) : result Q :=
  let gap_measure := (measure - previous_measure)%Q in
  (gap_time <- py_div (60 * 4 * gap_measure) previous_bpm ;;
   Ok (previous_time + gap_time)%Q)%py.

(** The [for] loop of [measure_to_second], continued by the code after
    it when the list is exhausted or at the [break]. *)
Fixpoint measure_to_second_loop
    (measure previous_measure previous_bpm previous_time : Q)
    (bpms : list (Q * Q)) : result Q :=
  match bpms with
  | [] =>
      measure_to_second_end measure previous_measure previous_bpm
                            previous_time
  | (current_measure, current_bpm) :: rest =>
      let gap_measure := (current_measure - previous_measure)%Q in
      (gap_time <- py_div (60 * 4 * gap_measure) previous_bpm ;;
       let current_time := (previous_time + gap_time)%Q in
       if isclose current_measure measure then Ok current_time
       else if Qlt_bool measure current_measure then
         measure_to_second_end measure previous_measure previous_bpm
                               previous_time
       else
         measure_to_second_loop measure current_measure current_bpm
                                current_time rest)%py
  end.

(** [measure_to_second(measure, bpms)]: the list object [bpms] after the
    call, and the outcome. *)
Definition measure_to_second (measure : Q) (bpms : list (Q * Q))
  : list (Q * Q) * result Q :=
  if Qle_bool measure 1 then (bpms, Ok 0%Q)
  else
    match _check_bpms bpms with
    | Raise e => (bpms, Raise e)
    | Ok _ =>
        let bpms := sort_bpms bpms in
        match bpms with
        | [] => (bpms, Raise IndexError)
        | (_, bpm0) :: _ =>
            (bpms, measure_to_second_loop measure 1 bpm0 0 bpms)
        end
    end.

Definition second_to_measure_end
    (seconds previous_measure previous_time previous_bpm : Q) : result Q :=
  let gap_time := (seconds - previous_time)%Q in
  let gap_measure := (gap_time * previous_bpm / (60 * 4))%Q in
  Ok (previous_measure + gap_measure)%Q.

Fixpoint second_to_measure_loop
    (seconds previous_measure previous_time previous_bpm : Q)
    (bpms : list (Q * Q)) : result Q :=
  match bpms with
  | [] =>
      second_to_measure_end seconds previous_measure previous_time
                            previous_bpm
  | (current_measure, current_bpm) :: rest =>
      let gap_measure := (current_measure - previous_measure)%Q in
      (gap_time <- py_div (60 * gap_measure * 4) previous_bpm ;;
       let current_time := (previous_time + gap_time)%Q in
       if isclose current_time seconds then Ok current_measure
       else if Qlt_bool seconds current_time then
         second_to_measure_end seconds previous_measure previous_time
                               previous_bpm
       else
         second_to_measure_loop seconds current_measure current_time
                                current_bpm rest)%py
  end.

Definition second_to_measure (seconds : Q) (bpms : list (Q * Q))
  : list (Q * Q) * result Q :=
  if Qle_bool seconds 0 then (bpms, Ok 1%Q)
  else
    match _check_bpms bpms with
    | Raise e => (bpms, Raise e)
    | Ok _ =>
        let bpms := sort_bpms bpms in
        match bpms with
        | [] => (bpms, Raise IndexError)
        | (_, bpm0) :: _ =>
            (bpms, second_to_measure_loop seconds 1 0 bpm0 bpms)
        end
    end.

Definition quantise (measure : Q) (grid : Z) : result Q :=
  if grid <=? 0 then Raise (ValueError "Quantisation is not positive")
  else Ok (inject_Z (py_round (inject_Z grid * measure)) / inject_Z grid)%Q.

(* ================================================================= *)
(** ** The chart *)

Record SimaiChart : Type := mkChart {
  notes : list SimaiNote;
  bpms : list BPMEvent
}.

(** [SimaiChart()] *)
Definition SimaiChart_init : SimaiChart := mkChart [] [].

(** A method call on a chart: the chart after the call and the outcome. *)
Definition method (A : Type) : Type := SimaiChart -> SimaiChart * result A.

Definition append_note (n : SimaiNote) : method unit :=
  fun self => (mkChart (notes self ++ [n]) (bpms self), Ok tt).

Definition add_tap (measure : Q) (position : Z)
    (is_break is_star is_ex : bool) : method unit :=
  append_note (SimaiTapNote measure position is_break is_star is_ex).

Definition add_hold (measure : Q) (position : Z) (duration : Q)
    (is_ex : bool) : method unit :=
  append_note (SimaiHoldNote measure position duration is_ex).

Definition add_slide (measure : Q) (start_position end_position : Z)
    (duration : Q) (pattern : string) (delay : Q)
    (reflect_position : option Z) : method unit :=
  fun self =>
    match SimaiSlideNote measure start_position end_position duration
                         pattern delay reflect_position with
    | Raise e => (self, Raise e)
    | Ok slide_note => append_note slide_note self
    end.

Definition add_touch_tap (measure : Q) (position : Z) (zone : string)
    (is_firework : bool) : method unit :=
  append_note (SimaiTouchTapNote measure position zone is_firework).

Definition add_touch_hold (measure : Q) (position : Z) (zone : string)
    (duration : Q) (is_firework : bool) : method unit :=
  append_note (SimaiTouchHoldNote measure position zone duration is_firework).

Definition set_bpm (measure : Q) (bpm : PyNum) : method unit :=
  fun self =>
    match SimaiBPM measure bpm with
    | Raise e => (self, Raise e)
    | Ok bpm_event => (mkChart (notes self) (bpms self ++ [bpm_event]), Ok tt)
    end.

(** The scan of [get_bpm] over the sorted distinct marker measures. *)
Fixpoint get_bpm_scan (measure previous_measure : Q) (bpm_measures : list Q)
  : Q :=
  match bpm_measures with
  | [] => previous_measure
  | bpm_measure :: rest =>
      if Qle_bool bpm_measure measure
      then get_bpm_scan measure bpm_measure rest
      else previous_measure
  end.

Definition get_bpm (self : SimaiChart) (measure : Q) : option PyNum :=
  let bpm_measures := sorted_set (map bpm_measure (bpms self)) in
  let previous_measure := get_bpm_scan measure 0 bpm_measures in
  let bpm_result :=
    map bpm (filter (fun b => Qeq_bool (bpm_measure b) previous_measure)
                    (bpms self)) in
  match bpm_result with
  | [] => None
  | b :: _ => Some b
  end.

(** [note.measure = round((note.measure + offset) * 10000.0) / 10000.0] *)
Definition offset_note (offset : Q) (note : SimaiNote) : SimaiNote :=
  set_measure (round4 (measure note + offset)) note.

Definition offset_bpm (offset : Q) (event : BPMEvent) : BPMEvent :=
  if Qeq_bool (bpm_measure event) 1 then event
  else mkBPM (round4 (bpm_measure event + offset)) (bpm event).

Definition offset (offset : Q) : method unit :=
  fun self =>
    (mkChart (map (offset_note offset) (notes self))
             (map (offset_bpm offset) (bpms self)), Ok tt).

(* ================================================================= *)
(** ** Python runtime: strings and formatting *)

(** [str(z)] for an [int]. *)
Definition str_int (z : Z) : string := NilZero.string_of_int (Z.to_int z).

(** [s * n]: the empty string when [n] is not positive. *)
Definition str_repeat (s : string) (n : Z) : string :=
  String.concat "" (List.repeat s (Z.to_nat n)).

(** The fractional digits of [r / d] for [0 <= r < d], to the end of the
    expansion or [fuel] digits, whichever comes first. *)
Fixpoint frac_digits (fuel : nat) (r d : Z) : string :=
  match fuel with
  | O => ""
  | S fuel' =>
      if r =? 0 then ""
      else (str_int (10 * r / d) ++ frac_digits fuel' (10 * r mod d) d)%string
  end.

(** [str(x)] for a float, idealised: the decimal expansion of the
    rational, cut after 17 fractional digits, with [.0] for an integral
    value, as in [120.0] and [187.5]. *)
Definition str_float (x : Q) : string :=
  let n := Z.abs (Qnum x) in
  let d := Z.pos (Qden x) in
  let digits := frac_digits 17 (n mod d) d in
  let sign := if Qnum x <? 0 then "-" else "" in
  (sign ++ str_int (n / d) ++ "."
   ++ (if String.eqb digits "" then "0" else digits))%string.

(** ["{}".format(x)] for a number. *)
Definition str_num (x : PyNum) : string :=
  match x with
  | PyInt z => str_int z
  | PyFloat q => str_float q
  end.

(** ["{:.2f}".format(x)] *)
Definition format_2f (x : Q) : string :=
  let n := py_round (100 * x)%Q in
  let a := Z.abs n in
  let sign := if n <? 0 then "-" else "" in
  (sign ++ str_int (a / 100) ++ "."
   ++ str_int (a mod 100 / 10) ++ str_int (a mod 10))%string.

Definition newline : string := String (ascii_of_nat 10) "".

(* ================================================================= *)
(** ** The exporter *)

(** What the lists passed to [simai_convert_to_fragment] hold: notes and
    tempo markers. *)
Inductive ChartEvent : Type :=
| NoteEvent (note : SimaiNote)
| BpmEvent (event : BPMEvent).

Definition is_tap_note (n : SimaiNote) : bool :=
  match n with TapNote _ _ _ => true | _ => false end.
Definition is_hold_note (n : SimaiNote) : bool :=
  match n with HoldNote _ _ _ _ => true | _ => false end.
Definition is_slide_note (n : SimaiNote) : bool :=
  match n with SlideNote _ _ _ _ _ _ _ _ => true | _ => false end.
Definition is_touch_tap_note (n : SimaiNote) : bool :=
  match n with TouchTapNote _ _ _ _ _ => true | _ => false end.
Definition is_touch_hold_note (n : SimaiNote) : bool :=
  match n with TouchHoldNote _ _ _ _ _ _ => true | _ => false end.

(** [[e for e in events if isinstance(e, SimaiBPM)]] and its siblings. *)
Fixpoint events_bpms (events : list ChartEvent) : list BPMEvent :=
  match events with
  | [] => []
  | BpmEvent b :: l => b :: events_bpms l
  | NoteEvent _ :: l => events_bpms l
  end.

Fixpoint events_notes (keep : SimaiNote -> bool) (events : list ChartEvent)
  : list SimaiNote :=
  match events with
  | [] => []
  | NoteEvent n :: l =>
      if keep n then n :: events_notes keep l else events_notes keep l
  | BpmEvent _ :: l => events_notes keep l
  end.

Definition simai_slide_to_pattern_str (slide_note : SimaiNote)
  : result string :=
  match slide_note with
  | SlideNote _ _ _ _ _ pattern _ reflect_position =>
      if negb (String.eqb pattern "V") then Ok pattern
      else match reflect_position with
           | None => Raise (Exception "Slide has 'V' pattern but no reflect position")
           | Some r => Ok ("V" ++ str_int (r + 1))%string
           end
  | _ => Raise AttributeError
  end.

(** The sort key [(position, end_position, pattern)] of the slides. *)
Definition slide_key_le (a b : SimaiNote) : bool :=
  match a, b with
  | SlideNote _ pa _ _ ea pta _ _, SlideNote _ pb _ _ eb ptb _ _ =>
      if pa <? pb then true
      else if pb <? pa then false
      else if ea <? eb then true
      else if eb <? ea then false
      else String.leb pta ptb
  | _, _ => true
  end.

(** ["[{}:{}]"] with the duration as a fraction of denominator at most
    1000. *)
Definition duration_fraction (duration : Q) : result string :=
  (frac <- limit_denominator duration 1000 ;;
   Ok ("[" ++ str_int (Z.pos (Qden frac)) ++ ":" ++ str_int (Qnum frac)
       ++ "]")%string)%py.

Definition slash (counter : Z) : string := if counter >? 0 then "/" else "".

(** The loop over [tap_notes]; the state is [(fragment, counter)]. *)
Fixpoint fragment_taps (slide_notes : list SimaiNote)
    (tap_notes : list SimaiNote) (fragment : string) (counter : Z)
  : string * Z :=
  match tap_notes with
  | [] => (fragment, counter)
  | tap_note :: rest =>
      let note_type := note_type tap_note in
      if NoteType_in note_type [tap; break_tap; ex_tap] then
        let modifier_string :=
          if NoteType_eqb note_type break_tap then "b"
          else if NoteType_eqb note_type ex_tap then "x"
          else "" in
        fragment_taps slide_notes rest
          (fragment ++ slash counter ++ str_int (position tap_note + 1)
           ++ modifier_string)%string
          (counter + 1)
      else if NoteType_in note_type [star; break_star; ex_star] then
        let produced_slides :=
          filter (fun slide => position slide =? position tap_note)
                 slide_notes in
        match produced_slides with
        | _ :: _ => fragment_taps slide_notes rest fragment counter
        | [] =>
            let modifier_string :=
              if NoteType_eqb note_type break_star then "b$"
              else if NoteType_eqb note_type ex_star then "x$"
              else "$" in
            fragment_taps slide_notes rest
              (fragment ++ slash counter ++ str_int (position tap_note + 1)
               ++ modifier_string)%string
              (counter + 1)
        end
      else fragment_taps slide_notes rest fragment (counter + 1)
  end.

Fixpoint fragment_holds (hold_notes : list SimaiNote) (fragment : string)
    (counter : Z) : result (string * Z) :=
  match hold_notes with
  | [] => Ok (fragment, counter)
  | hold_note :: rest =>
      match hold_note with
      | HoldNote _ position note_type duration =>
          (frac <- duration_fraction duration ;;
           let modifier_string :=
             if NoteType_eqb note_type ex_hold then "hx" else "h" in
           fragment_holds rest
             (fragment ++ slash counter ++ str_int (position + 1)
              ++ modifier_string ++ frac)%string
             (counter + 1))%py
      | _ => Raise AttributeError
      end
  end.

Fixpoint fragment_touch_taps (touch_tap_notes : list SimaiNote)
    (fragment : string) (counter : Z) : result (string * Z) :=
  match touch_tap_notes with
  | [] => Ok (fragment, counter)
  | touch_tap_note :: rest =>
      match touch_tap_note with
      | TouchTapNote _ position _ is_firework zone =>
          let modifier_string := if is_firework then "f" else "" in
          fragment_touch_taps rest
            (fragment ++ slash counter ++ zone ++ str_int (position + 1)
             ++ modifier_string)%string
            (counter + 1)
      | _ => Raise AttributeError
      end
  end.

Fixpoint fragment_touch_holds (touch_hold_notes : list SimaiNote)
    (fragment : string) (counter : Z) : result (string * Z) :=
  match touch_hold_notes with
  | [] => Ok (fragment, counter)
  | touch_hold_note :: rest =>
      match touch_hold_note with
      | TouchHoldNote _ _ _ is_firework zone duration =>
          (frac <- duration_fraction duration ;;
           let modifier_string := if is_firework then "hf" else "h" in
           fragment_touch_holds rest
             (fragment ++ slash counter ++ zone ++ modifier_string ++ frac)%string
             (counter + 1))%py
      | _ => Raise AttributeError
      end
  end.

(** The loop over the sorted [slide_notes]; the state is
    [(fragment, counter, positions)]. *)
Fixpoint fragment_slides (tap_notes : list SimaiNote)
    (current_bpm : option PyNum) (slide_notes : list SimaiNote)
    (fragment : string) (counter : Z) (positions : list Z)
  : result string :=
  match slide_notes with
  | [] => Ok fragment
  | slide_note :: rest =>
      match slide_note with
      | SlideNote _ slide_position _ duration end_position _ delay _ =>
          let stars :=
            filter (fun star => position star =? slide_position)
                   tap_notes in
          let seen := z_in slide_position positions in
          let fragment :=
            if (counter >? 0) && negb seen then (fragment ++ "/")%string
            else fragment in
          (modifier_string <-
             match stars with
             | [] => if negb seen then Ok "?" else Raise IndexError
             | star0 :: _ =>
                 if NoteType_eqb (note_type star0) break_star && negb seen
                 then Ok "b"
                 else if NoteType_eqb (note_type star0) ex_star && negb seen
                 then Ok "x"
                 else Ok ""
             end ;;
           let start_position :=
             if seen then "*" else str_int (slide_position + 1) in
           pattern <- simai_slide_to_pattern_str slide_note ;;
           spec <-
             (if negb (Qeq_bool delay (1 # 4)) then
                scale <- py_div (1 # 4) delay ;;
                match current_bpm with
                | None => Raise TypeError
                | Some current_bpm =>
                    let equivalent_bpm :=
                      round4 (num_val current_bpm * scale) in
                    let equivalent_duration := (duration * scale)%Q in
                    frac <- limit_denominator equivalent_duration 1000 ;;
                    Ok ("[" ++ format_2f equivalent_bpm ++ "#"
                        ++ str_int (Z.pos (Qden frac)) ++ ":"
                        ++ str_int (Qnum frac) ++ "]")%string
                end
              else duration_fraction duration) ;;
           let positions :=
             if negb seen then (positions ++ [slide_position])%list
             else positions in
           fragment_slides tap_notes current_bpm rest
             (fragment ++ start_position ++ modifier_string ++ pattern
              ++ str_int (end_position + 1) ++ spec)%string
             (counter + 1) positions)%py
      | _ => Raise AttributeError
      end
  end.

Definition simai_convert_to_fragment (events : list ChartEvent)
    (current_bpm : option PyNum) (divisor : option Z) : result string :=
  match events with
  | [] => Ok ""
  | _ :: _ =>
      let bpms := events_bpms events in
      let tap_notes := events_notes is_tap_note events in
      let hold_notes := events_notes is_hold_note events in
      let touch_tap_notes := events_notes is_touch_tap_note events in
      let touch_hold_notes := events_notes is_touch_hold_note events in
      let slide_notes :=
        py_sorted slide_key_le (events_notes is_slide_note events) in
      (fragment <-
         match bpms with
         | [] => Ok ""
         | [b] => Ok ("(" ++ str_num (bpm b) ++ ")")%string
         | _ => Raise (Exception "Multiple BPM defined at same measure")
         end ;;
       let fragment :=
         match divisor with
         | Some d => (fragment ++ "{" ++ str_int d ++ "}")%string
         | None => fragment
         end in
       let '(fragment, counter) :=
         fragment_taps slide_notes tap_notes fragment 0 in
       st <- fragment_holds hold_notes fragment counter ;;
       st <- fragment_touch_taps touch_tap_notes (fst st) (snd st) ;;
       st <- fragment_touch_holds touch_hold_notes (fst st) (snd st) ;;
       fragment_slides tap_notes current_bpm slide_notes (fst st) (snd st) [])%py
  end.

(** The notes that keep a pending end: holds, touch holds and slides. *)
Definition is_hold_slide (n : SimaiNote) : bool :=
  NoteType_in (note_type n) [hold; ex_hold; touch_hold; complete_slide].

(** The loop of [export] over [hold_slides]. *)
Fixpoint last_end_measure (current_measure : Q) (hold_slides : list SimaiNote)
    (slide_hold_last_end_measure : Q) : result Q :=
  match hold_slides with
  | [] => Ok slide_hold_last_end_measure
  | hold_slide :: rest =>
      (end_measure <-
         (if NoteType_eqb (note_type hold_slide) complete_slide then
            match delay hold_slide, duration hold_slide with
            | Some dl, Some d => Ok (current_measure + dl + d)%Q
            | _, _ => Raise AttributeError
            end
          else
            match duration hold_slide with
            | Some d => Ok (current_measure + d)%Q
            | None => Raise AttributeError
            end) ;;
       last_end_measure current_measure rest
         (if Qlt_bool slide_hold_last_end_measure end_measure
          then end_measure else slide_hold_last_end_measure))%py
  end.

(** [(whole, post_div, post_amount) = simai_get_rest(a, b)] with the
    choice of divisor that follows it. *)
Definition rest_to (current_measure next_measure : Q)
  : result (Z * Z * Z * Z * bool) :=
  (rest <- simai_get_rest current_measure next_measure ;;
   match rest with
   | None => Raise TypeError
   | Some (whole, post_div, post_amount) =>
       if whole >? 0 then Ok (whole, post_div, post_amount, 1, true)
       else Ok (whole, post_div, post_amount, post_div, false)
   end)%py.

(** The state of the loop of [export]. *)
Record ExportState : Type := mkExportState {
  previous_measure_whole : Z;
  slide_hold_last_end_measure : Q;
  previous_divisor : option Z;
  export_result : string
}.

Definition option_Z_eqb (a b : option Z) : bool :=
  match a, b with
  | Some x, Some y => x =? y
  | None, None => true
  | _, _ => false
  end.

(** One iteration of the loop of [export], at [current_measure], with
    [next_measure] the measure that follows it in the sorted list, if
    any. *)
Definition export_step (self : SimaiChart) (current_measure : Q)
    (next_measure : option Q) (st : ExportState) : result ExportState :=
  let bpm :=
    filter (fun b => Qeq_bool (bpm_measure b) current_measure) (bpms self) in
  let notes :=
    filter (fun n => Qeq_bool (measure n) current_measure) (notes self) in
  let hold_slides := filter is_hold_slide notes in
  (last_end <- last_end_measure current_measure hold_slides
                 (slide_hold_last_end_measure st) ;;
   let '(whole_part, result) :=
     if py_int current_measure >? previous_measure_whole st
     then (py_int current_measure, (export_result st ++ newline)%string)
     else (previous_measure_whole st, export_result st) in
   plan <-
     match next_measure with
     | None =>
         if Qlt_bool current_measure last_end then
           r <- rest_to current_measure last_end ;;
           let '(whole, post_div, post_amount, current_divisor, is_move_whole) := r in
           Ok (Some whole, Some post_div, Some post_amount,
               Some current_divisor, is_move_whole)
         else Ok (None, None, None, previous_divisor st, false)
     | Some next_measure =>
         r <- rest_to current_measure next_measure ;;
         let '(whole, post_div, post_amount, current_divisor, is_move_whole) := r in
         Ok (Some whole, Some post_div, Some post_amount,
             Some current_divisor, is_move_whole)
     end ;;
   let '(whole, post_div, post_amount, current_divisor, is_move_whole) := plan in
   let divisor :=
     if negb (option_Z_eqb current_divisor (previous_divisor st))
     then current_divisor else None in
   fragment <- simai_convert_to_fragment
                 (map NoteEvent notes ++ map BpmEvent bpm)%list
                 (get_bpm self current_measure) divisor ;;
   let result := (result ++ fragment)%string in
   let result :=
     if is_move_whole
     then (result ++ str_repeat "," (match whole with Some w => w | None => 0 end))%string
     else result in
   let '(result, current_divisor) :=
     match post_div, post_amount with
     | Some post_div, Some post_amount =>
         if negb (option_Z_eqb (Some post_div) current_divisor)
         then ((result ++ "{" ++ str_int post_div ++ "}"
                ++ str_repeat "," post_amount)%string, Some post_div)
         else ((result ++ str_repeat "," post_amount)%string, current_divisor)
     | _, _ => (result, current_divisor)
     end in
   Ok (mkExportState whole_part last_end current_divisor result))%py.

(** The [for] loop of [export] over the sorted measures. *)
Fixpoint export_loop (self : SimaiChart) (measures : list Q)
    (st : ExportState) : result ExportState :=
  match measures with
  | [] => Ok st
  | current_measure :: rest =>
      (st' <- export_step self current_measure (List.hd_error rest) st ;;
       export_loop self rest st')%py
  end.

Definition export (self : SimaiChart) : result string :=
  let measures := map measure (notes self) in
  if (List.length (bpms self) =? 0)%nat
  then Raise (Exception "No BPMs defined")
  else
    match get_bpm self 1 with
    | None => Raise (Exception "No starting BPM defined")
    | Some _ =>
        let measures :=
          sorted_set (measures ++ map bpm_measure (bpms self))%list in
        (st <- export_loop self measures (mkExportState 1 1 None "") ;;
         Ok (export_result st ++ "," ++ newline ++ "E")%string)%py
    end.

(* ================================================================= *)
(** ** Python runtime: splitting strings *)

(** The characters [str.split()] treats as white space, within ASCII. *)
Definition is_space (c : ascii) : bool :=
  let n := nat_of_ascii c in
  ((9 <=? n) && (n <=? 13) || (28 <=? n) && (n <=? 32))%nat.

(** ["".join(s.split())] *)
Fixpoint remove_whitespace (s : string) : string :=
  match s with
  | EmptyString => EmptyString
  | String c s' =>
      if is_space c then remove_whitespace s'
      else String c (remove_whitespace s')
  end.

(** [s.split(sep)] for a one-character separator: the pieces between the
    separators, of which there is always at least one. *)
Fixpoint split_on (sep : ascii) (s : string) : list string :=
  match s with
  | EmptyString => [EmptyString]
  | String c s' =>
      if Ascii.eqb c sep then EmptyString :: split_on sep s'
      else match split_on sep s' with
           | piece :: pieces => String c piece :: pieces
           | [] => [String c EmptyString]
           end
  end.

(** [c in s] for a one-character [c]. *)
Fixpoint str_contains (c : ascii) (s : string) : bool :=
  match s with
  | EmptyString => false
  | String c' s' => Ascii.eqb c c' || str_contains c s'
  end.

Definition is_digit (c : ascii) : bool :=
  let n := nat_of_ascii c in ((48 <=? n) && (n <=? 57))%nat.

Definition digit_value (c : ascii) : Z := Z.of_nat (nat_of_ascii c) - 48.

(** The longest prefix of digits, and what follows it. *)
Fixpoint take_digits (s : string) : string * string :=
  match s with
  | EmptyString => (EmptyString, EmptyString)
  | String c s' =>
      if is_digit c
      then let (digits, rest) := take_digits s' in (String c digits, rest)
      else (EmptyString, s)
  end.

(** [int(s)] for a string of digits. *)
Definition int_of_digits (s : string) : result Z :=
  match NilZero.uint_of_string s with
  | Some d => Ok (Z.of_uint d)
  | None => Raise (ValueError "invalid literal for int()")
  end.

(* ================================================================= *)
(** ** The tokenizer of one fragment *)

(** The records [simai_parse_fragment] yields, one constructor for each
    ["event_type"] with the keys the parser reads; a tag the parser does
    not know is [UnknownRecord]. *)
Inductive FragmentRecord : Type :=
| BpmRecord (value : PyNum)
| DivisorRecord (value : Z)
| TapRecord (button : Z) (modifier : option string)
| HoldRecord (button : Z) (modifier : option string) (duration : Q)
| SlideRecord (start_button end_button : Z) (modifier : option string)
    (pattern : string) (reflect_position : option Z)
    (equivalent_bpm : option PyNum) (duration : Q)
| TouchTapRecord (location : string) (modifier : option string)
| TouchHoldRecord (location : string) (modifier : option string)
    (duration : Q)
| UnknownRecord (event_type : string).

Definition SyntaxError : PyExn := Exception "Unexpected token".

(** A number as it stands between the parentheses of a tempo change:
    digits, or digits, a point and digits. *)
Definition read_number (s : string) : result (PyNum * string) :=
  let (whole, rest) := take_digits s in
  (w <- int_of_digits whole ;;
   match rest with
   | String "." rest' =>
       let (frac, rest'') := take_digits rest' in
       f <- int_of_digits frac ;;
       Ok (PyFloat (inject_Z w
                    + inject_Z f / inject_Z (10 ^ Z.of_nat (String.length frac)))%Q,
           rest'')
   | _ => Ok (PyInt w, rest)
   end)%py.

Definition read_int (s : string) : result (Z * string) :=
  let (digits, rest) := take_digits s in
  (z <- int_of_digits digits ;; Ok (z, rest))%py.

(** [c] followed by the rest, or a syntax error. *)
Definition expect (c : ascii) (s : string) : result string :=
  match s with
  | String c' rest => if Ascii.eqb c c' then Ok rest else Raise SyntaxError
  | EmptyString => Raise SyntaxError
  end.

(** An optional tempo change [(number)]. *)
Definition read_tempo (s : string) : result (list FragmentRecord * string) :=
  match s with
  | String "(" rest =>
      (nr <- read_number rest ;;
       rest' <- expect ")" (snd nr) ;;
       Ok ([BpmRecord (fst nr)], rest'))%py
  | _ => Ok ([], s)
  end.

(** An optional divisor change [{int}]. *)
Definition read_divisor (s : string)
  : result (list FragmentRecord * string) :=
  match s with
  | String "{" rest =>
      (nr <- read_int rest ;;
       rest' <- expect "}" (snd nr) ;;
       Ok ([DivisorRecord (fst nr)], rest'))%py
  | _ => Ok ([], s)
  end.

(** A duration [[den:num]] or [[bpm#den:num]]: the equivalent tempo, if
    any, and [num / den] measures. *)
Definition read_duration (s : string)
  : result (option PyNum * Q * string) :=
  (rest <- expect "[" s ;;
   nr <- read_number rest ;;
   match snd nr with
   | String "#" rest' =>
       den <- read_int rest' ;;
       rest'' <- expect ":" (snd den) ;;
       num <- read_int rest'' ;;
       rest''' <- expect "]" (snd num) ;;
       d <- py_div (inject_Z (fst num)) (inject_Z (fst den)) ;;
       Ok (Some (fst nr), d, rest''')
   | String ":" rest' =>
       match fst nr with
       | PyInt den =>
           num <- read_int rest' ;;
           rest'' <- expect "]" (snd num) ;;
           d <- py_div (inject_Z (fst num)) (inject_Z den) ;;
           Ok (None, d, rest'')
       | PyFloat _ => Raise SyntaxError
       end
   | _ => Raise SyntaxError
   end)%py.

Definition is_lane (c : ascii) : bool :=
  let n := nat_of_ascii c in ((49 <=? n) && (n <=? 56))%nat.

Definition is_zone (c : ascii) : bool :=
  let n := nat_of_ascii c in ((65 <=? n) && (n <=? 90))%nat.

Definition is_modifier (c : ascii) : bool :=
  existsb (Ascii.eqb c) ["b"; "x"; "$"; "?"; "!"]%char.

(** The longest prefix of modifier characters, and what follows it. *)
Fixpoint take_modifiers (s : string) : string * string :=
  match s with
  | EmptyString => (EmptyString, EmptyString)
  | String c s' =>
      if is_modifier c
      then let (m, rest) := take_modifiers s' in (String c m, rest)
      else (EmptyString, s)
  end.

Definition optional_modifier (m : string) : option string :=
  match m with EmptyString => None | _ => Some m end.

(** A slide pattern symbol, with the reflect lane of a [V]. *)
Definition read_pattern (s : string)
  : result (string * option Z * string) :=
  match s with
  | String "p" (String "p" rest) => Ok ("pp", None, rest)
  | String "q" (String "q" rest) => Ok ("qq", None, rest)
  | String "V" (String c rest) =>
      if is_lane c then Ok ("V", Some (digit_value c - 1), rest)
      else Raise SyntaxError
  | String c rest =>
      if str_in (String c "") ["-"; "^"; ">"; "<"; "p"; "q"; "s"; "z"; "v"; "w"]
      then Ok (String c "", None, rest)
      else Raise SyntaxError
  | EmptyString => Raise SyntaxError
  end.

(** The slides of one token: pattern, end lane and duration, then as
    many times [*] and the same again. *)
Fixpoint read_slides (fuel : nat) (start_button : Z)
    (modifier : option string) (s : string) : result (list FragmentRecord) :=
  match fuel with
  | O => Raise SyntaxError
  | S fuel' =>
      (p <- read_pattern s ;;
       let '(pattern, reflect_position, rest) := p in
       match rest with
       | String c rest' =>
           if is_lane c then
             d <- read_duration rest' ;;
             let '(equivalent_bpm, duration, rest'') := d in
             let record :=
               SlideRecord start_button (digit_value c - 1) modifier pattern
                           reflect_position equivalent_bpm duration in
             match rest'' with
             | EmptyString => Ok [record]
             | String "*" rest''' =>
                 more <- read_slides fuel' start_button modifier rest''' ;;
                 Ok (record :: more)
             | _ => Raise SyntaxError
             end
           else Raise SyntaxError
       | EmptyString => Raise SyntaxError
       end)%py
  end.

(** A token that starts with a lane number: a tap, a hold or slides. *)
Definition read_lane_token (button : Z) (s : string)
  : result (list FragmentRecord) :=
  let (m, rest) := take_modifiers s in
  match rest with
  | EmptyString =>
      if str_contains "?" m || str_contains "!" m then Raise SyntaxError
      else Ok [TapRecord button (optional_modifier m)]
  | String "h" rest' =>
      match m with
      | EmptyString =>
          let (modifier, rest'') :=
            match rest' with
            | String "x" r => (Some "x", r)
            | _ => (None, rest')
            end in
          (d <- read_duration rest'' ;;
           let '(_, duration, rest''') := d in
           match rest''' with
           | EmptyString => Ok [HoldRecord button modifier duration]
           | _ => Raise SyntaxError
           end)%py
      | _ => Raise SyntaxError
      end
  | _ => read_slides (String.length rest) button (optional_modifier m) rest
  end.

(** A token that starts with a touch zone: a touch tap or a touch
    hold. *)
Definition read_touch_token (zone : ascii) (s : string)
  : result (list FragmentRecord) :=
  let (location, rest) :=
    match s with
    | String c rest =>
        if is_digit c then (String zone (String c ""), rest)
        else (String zone "", s)
    | EmptyString => (String zone "", s)
    end in
  match rest with
  | EmptyString => Ok [TouchTapRecord location None]
  | String "f" EmptyString => Ok [TouchTapRecord location (Some "f")]
  | String "h" rest' =>
      let (modifier, rest'') :=
        match rest' with
        | String "f" r => (Some "f", r)
        | _ => (None, rest')
        end in
      (d <- read_duration rest'' ;;
       let '(_, duration, rest''') := d in
       match rest''' with
       | EmptyString => Ok [TouchHoldRecord location modifier duration]
       | _ => Raise SyntaxError
       end)%py
  | _ => Raise SyntaxError
  end.

Definition read_token (s : string) : result (list FragmentRecord) :=
  match s with
  | String c rest =>
      if is_lane c then read_lane_token (digit_value c - 1) rest
      else if is_zone c then read_touch_token c rest
      else Raise SyntaxError
  | EmptyString => Raise SyntaxError
  end.

Fixpoint read_tokens (tokens : list string) : result (list FragmentRecord) :=
  match tokens with
  | [] => Ok []
  | t :: rest =>
      (records <- read_token t ;;
       more <- read_tokens rest ;;
       Ok (records ++ more)%list)%py
  end.

(** Modelled from the spec: the tokenizer
    [simai_lark_parser.simai_parse_fragment], which the sources import
    but do not contain.  It follows the input grammar of the
    specification: an optional tempo change [(number)], an optional
    divisor change [{int}], then tokens separated by slashes: a lane
    [1]..[8] with modifiers [b], [x], [$] is a tap; with [h] or [hx] and
    a duration [[den:num]] a hold of [num / den] measures; with an
    optional modifier among [b], [x], [?], [!], [$], a pattern, an end
    lane and a duration [[den:num]] or [[bpm#den:num]] a slide, followed
    by [*] and further slides from the same lane; a zone letter with an
    optional digit is a touch tap ([f] for fireworks), with [h] or [hf]
    and a duration a touch hold.  Lanes are returned as buttons
    [0]..[7]. *)
Definition simai_parse_fragment (fragment : string)
  : result (list FragmentRecord) :=
  (t <- read_tempo fragment ;;
   d <- read_divisor (snd t) ;;
   match snd d with
   | EmptyString => Ok (fst t ++ fst d)%list
   | body =>
       records <- read_tokens (split_on "/" body) ;;
       Ok (fst t ++ fst d ++ records)%list
   end)%py.

(* ================================================================= *)
(** ** The parser *)

(** The running state of [simai_parse_chart]. *)
Record ParserState : Type := mkParserState {
  simai_chart : SimaiChart;
  current_bpm : PyNum;
  current_divisor : Z;
  current_measure : Q
}.

(** A method call on the chart under construction. *)
Definition call (m : method unit) (st : ParserState) : result ParserState :=
  match m (simai_chart st) with
  | (chart, Ok _) =>
      Ok (mkParserState chart (current_bpm st) (current_divisor st)
                        (current_measure st))
  | (_, Raise e) => Raise e
  end.

(** [zone] and [location] of a touch record. *)
Definition touch_location (location : string) : result (string * Z) :=
  match location with
  | EmptyString => Raise IndexError
  | String z EmptyString => Ok (String z "", 0)
  | String z (String c _) =>
      if is_digit c then Ok (String z "", digit_value c - 1)
      else Raise (ValueError "invalid literal for int()")
  end.

Definition touch_modifier (modifier : option string) : result bool :=
  match modifier with
  | None => Ok false
  | Some m =>
      if String.eqb m "f" then Ok true
      else Raise (ValueError "Unknown touch modifier")
  end.

(** The body of the loop over the records of one fragment; the state
    carries [star_positions] next to the parser state. *)
Definition parse_record (event : FragmentRecord)
    (st : ParserState * list Z) : result (ParserState * list Z) :=
  let (ps, star_positions) := st in
  match event with
  | BpmRecord value =>
      (ps' <- call (set_bpm (current_measure ps) value)
                (mkParserState (simai_chart ps) value (current_divisor ps)
                               (current_measure ps)) ;;
       Ok (ps', star_positions))%py
  | DivisorRecord value =>
      Ok (mkParserState (simai_chart ps) (current_bpm ps) value
                        (current_measure ps), star_positions)
  | TapRecord button modifier =>
      let '(is_break, is_ex, is_star) :=
        match modifier with
        | None => (false, false, false)
        | Some m =>
            let is_break := str_contains "b" m in
            let is_ex := negb is_break && str_contains "x" m in
            (is_break, is_ex, str_contains "$" m)
        end in
      (ps' <- call (add_tap (current_measure ps) button is_break is_star is_ex)
                ps ;;
       Ok (ps', star_positions))%py
  | HoldRecord button modifier duration =>
      let is_ex :=
        match modifier with Some m => String.eqb m "x" | None => false end in
      (ps' <- call (add_hold (current_measure ps) button duration is_ex) ps ;;
       Ok (ps', star_positions))%py
  | SlideRecord start_button end_button modifier pattern reflect_position
                equivalent_bpm duration =>
      (flags <-
         match modifier with
         | None => Ok (false, false, false)
         | Some m =>
             if String.eqb m "b" then Ok (true, false, false)
             else if String.eqb m "x" then Ok (false, true, false)
             else if str_in m ["?"; "!"; "$"] then Ok (false, false, true)
             else Raise (ValueError "Unknown slide modifier")
         end ;;
       let '(is_break, is_ex, is_tapless) := flags in
       st1 <-
         (if negb (is_tapless || z_in start_button star_positions) then
            ps' <- call (add_tap (current_measure ps) start_button
                                 is_break true is_ex) ps ;;
            Ok (ps', (star_positions ++ [start_button])%list)
          else Ok (ps, star_positions)) ;;
       let (ps1, star_positions1) := st1 : ParserState * list Z in
       timing <-
         match equivalent_bpm with
         | None => Ok (duration, 1 # 4)
         | Some equivalent_bpm =>
             multiplier <- py_div (num_val (current_bpm ps1))
                                  (num_val equivalent_bpm) ;;
             Ok (multiplier * duration, multiplier * (1 # 4))%Q
         end ;;
       ps2 <- call (add_slide (current_measure ps1) start_button end_button
                              (fst timing) pattern (snd timing)
                              reflect_position) ps1 ;;
       Ok (ps2, star_positions1))%py
  | TouchTapRecord location modifier =>
      (is_firework <- touch_modifier modifier ;;
       zl <- touch_location location ;;
       ps' <- call (add_touch_tap (current_measure ps) (snd zl) (fst zl)
                                  is_firework) ps ;;
       Ok (ps', star_positions))%py
  | TouchHoldRecord location modifier duration =>
      (is_firework <- touch_modifier modifier ;;
       zl <- touch_location location ;;
       ps' <- call (add_touch_hold (current_measure ps) (snd zl) (fst zl)
                                   duration is_firework) ps ;;
       Ok (ps', star_positions))%py
  | UnknownRecord _ => Raise (Exception "Unknown event type")
  end.

Fixpoint parse_records (events : list FragmentRecord)
    (st : ParserState * list Z) : result (ParserState * list Z) :=
  match events with
  | [] => Ok st
  | event :: rest =>
      (st' <- parse_record event st ;; parse_records rest st')%py
  end.

(** [current_measure += 1 / current_divisor] *)
Definition advance (ps : ParserState) : result ParserState :=
  (step <- py_div 1 (inject_Z (current_divisor ps)) ;;
   Ok (mkParserState (simai_chart ps) (current_bpm ps) (current_divisor ps)
                     (current_measure ps + step)%Q))%py.

(** The loop over the fragments, for a given tokenizer. *)
Fixpoint parse_fragments
    (tokenizer : string -> result (list FragmentRecord))
    (fragments : list string) (ps : ParserState) : result ParserState :=
  match fragments with
  | [] => Ok ps
  | fragment :: rest =>
      if String.eqb fragment "E" then Ok ps
      else if String.eqb fragment "" then
        (ps' <- advance ps ;; parse_fragments tokenizer rest ps')%py
      else
        (events <- tokenizer fragment ;;
         st <- parse_records events (ps, []) ;;
         ps' <- advance (fst st) ;;
         parse_fragments tokenizer rest ps')%py
  end.

Definition simai_parse_chart_with
    (tokenizer : string -> result (list FragmentRecord)) (chart : string)
  : result SimaiChart :=
  let chart := remove_whitespace chart in
  let fragments := split_on "," chart in
  (ps <- parse_fragments tokenizer fragments
           (mkParserState SimaiChart_init (PyInt 120) 4 1) ;;
   Ok (simai_chart ps))%py.

Definition simai_parse_chart (chart : string) : result SimaiChart :=
  simai_parse_chart_with simai_parse_fragment chart.

(* ================================================================= *)
(** ** Invariants used in the proofs *)


(** The absolute tolerance of the converters' comparisons, 0.0005. *)
Definition tol : Q := 5 # 10000.

(** [second_to_measure(measure_to_second(measure, bpms), bpms)]: the
    second call sees the list as the first one left it. *)
Definition round_trip (measure : Q) (bpms : list (Q * Q)) : result Q :=
  let (bpms', t) := measure_to_second measure bpms in
  (seconds <- t ;; snd (second_to_measure seconds bpms'))%py.

(** Consecutive breakpoints lie more than the tolerance apart. *)
Definition spaced (a b : Q * Q) : Prop := (fst a + tol < fst b)%Q.

(** A breakpoint of an ordinary chart: measure at most 2000 and tempo
    between 1 and 240. *)
Definition ordinary (b : Q * Q) : Prop :=
  (fst b <= 2000)%Q /\ (1 <= snd b <= 240)%Q.
(* ================================================================= *)
(** ** The text of taps and tempo changes, as used in the proofs *)

(** The six kinds of tap. *)
Definition tap_types : list NoteType :=
  [tap; break_tap; ex_tap; star; break_star; ex_star].

(** A tap of one of the six kinds on a lane 0..7. *)
Definition is_plain_tap (n : SimaiNote) : bool :=
  match n with
  | TapNote _ p t => (0 <=? p) && (p <=? 7) && NoteType_in t tap_types
  | _ => false
  end.

(** The letters that follow the lane of a tap without a slide. *)
Definition tap_modifier (t : NoteType) : string :=
  match t with
  | break_tap => "b"
  | ex_tap => "x"
  | star => "$"
  | break_star => "b$"
  | ex_star => "x$"
  | _ => ""
  end.

(** The token of a tap: its lane, counted from 1, and its letters. *)
Definition tap_token (n : SimaiNote) : string :=
  (str_int (position n + 1) ++ tap_modifier (note_type n))%string.

(** The tokens of the taps of one fragment, with a slash before each one
    but the first of the fragment. *)
Fixpoint taps_text (counter : Z) (taps : list SimaiNote) : string :=
  match taps with
  | [] => ""
  | n :: rest =>
      (slash counter ++ tap_token n ++ taps_text (counter + 1) rest)%string
  end.

(** The tempo change at the head of a fragment. *)
Definition tempo_text (markers : list BPMEvent) : string :=
  match markers with
  | [b] => ("(" ++ str_num (bpm b) ++ ")")%string
  | _ => ""
  end.

(** The divisor change of a fragment. *)
Definition divisor_text (divisor : option Z) : string :=
  match divisor with
  | Some d => ("{" ++ str_int d ++ "}")%string
  | None => ""
  end.




(* ================================================================= *)
(** * Properties *)

(** ** Slide geometry *)

Ltac lane_cases s :=
  let H := fresh in
  assert (H : s = 0 \/ s = 1 \/ s = 2 \/ s = 3 \/ s = 4 \/ s = 5 \/ s = 6 \/ s = 7)
    by lia;
  repeat (destruct H as [H | H]); subst s.

Lemma raises_Raise {A : Type} (e : PyExn) : raises (@Raise A e).
Proof. exists e. reflexivity. Qed.

Lemma raises_Ok {A : Type} (a : A) : ~ raises (Ok a).
Proof. intros [e He]. discriminate He. Qed.

(** The two arcs between two lanes always add up to a full turn or, for a
    lane and itself, are a full turn each. *)
Lemma slide_distance_sum (s e : Z) :
  s <> e -> slide_distance s e true + slide_distance s e false = 8.
Proof.
  intros Hne. unfold slide_distance.
  destruct (Z.geb_spec s e), (Z.leb_spec s e); lia.
Qed.

(** C3.  On lanes 0..7, [slide_is_cw] raises exactly when the lanes are 4
    steps apart; otherwise it returns [true] (clockwise) exactly when the
    clockwise arc is not longer than the counter-clockwise one, so it
    picks the shorter arc, and clockwise when both arcs are equal, which
    away from 180 degrees only happens for a lane and itself. *)
Theorem slide_is_cw_shorter_arc (s e : Z) :
  0 <= s <= 7 -> 0 <= e <= 7 ->
  (raises (slide_is_cw s e) <-> Z.abs (e - s) = 4) /\
  (Z.abs (e - s) = 4 <->
     slide_distance s e true = 4 /\ slide_distance s e false = 4) /\
  (Z.abs (e - s) <> 4 ->
     slide_is_cw s e
     = Ok (slide_distance s e true <=? slide_distance s e false)) /\
  (Z.abs (e - s) <> 4 ->
     slide_distance s e true = slide_distance s e false ->
     s = e /\ slide_is_cw s e = Ok true).
Proof.
  intros Hs He. split; [| split; [| split]].
  - unfold slide_is_cw.
    destruct (Z.eqb_spec (Z.abs (e - s)) 4) as [H4 | H4].
    + split; intros _; [exact H4 | apply raises_Raise].
    + split; [| intros H; contradiction].
      intros Hr. exfalso.
      destruct (_ || _); exact (raises_Ok _ Hr).
  - unfold slide_distance.
    destruct (Z.geb_spec s e), (Z.leb_spec s e); lia.
  - lane_cases s; lane_cases e; intros H;
      solve [ reflexivity | exfalso; apply H; reflexivity ].
  - lane_cases s; lane_cases e; intros H Heq;
      solve [ split; reflexivity
            | exfalso; apply H; reflexivity
            | exfalso; vm_compute in Heq; discriminate Heq ].
Qed.

Lemma slide_is_cw_shorter_arc_witness :
  (raises (slide_is_cw 0 4) <-> Z.abs (4 - 0) = 4) /\
  slide_is_cw 7 1 = Ok true /\ slide_is_cw 1 7 = Ok false.
Proof.
  split; [| split].
  - exact (proj1 (slide_is_cw_shorter_arc 0 4 ltac:(lia) ltac:(lia))).
  - destruct (slide_is_cw_shorter_arc 7 1 ltac:(lia) ltac:(lia))
      as (_ & _ & H & _).
    apply H. vm_compute. discriminate.
  - destruct (slide_is_cw_shorter_arc 1 7 ltac:(lia) ltac:(lia))
      as (_ & _ & H & _).
    apply H. vm_compute. discriminate.
Defined.

Lemma SimaiSlideNote_Ok (m : Q) (s e : Z) (d : Q) (p : string) (dl : Q)
    (r : option Z) (note : SimaiNote) :
  SimaiSlideNote m s e d p dl r = Ok note ->
  note = SlideNote (round4 m) s complete_slide (round4 d) e p (round4 dl) r.
Proof.
  unfold SimaiSlideNote. intros H.
  destruct (Qle_bool (round4 d) 0); [discriminate |].
  destruct (Qlt_bool (round4 dl) 0); [discriminate |].
  destruct (negb (str_in p simai_slide_patterns)); [discriminate |].
  destruct (_ && _); [discriminate |].
  injection H as <-. reflexivity.
Qed.

Lemma simai_pattern_from_int_codes (c s e : Z) :
  is_ok (simai_pattern_from_int c s e) = true ->
  In c [1; 2; 3; 4; 5; 6; 7; 8; 9; 10; 11; 12; 13].
Proof.
  unfold simai_pattern_from_int, z_in. cbn -[Z.eqb].
  repeat match goal with
         | |- context [ (?a =? c) ] =>
             destruct (Z.eqb_spec a c); [subst c; simpl; tauto |]
         | |- context [ (c =? ?a) ] =>
             destruct (Z.eqb_spec c a); [subst c; simpl; tauto |]
         end.
  cbn. intros H. discriminate H.
Qed.

(** C4.  Every supported geometry code survives decoding and encoding: if
    [simai_pattern_from_int c s e] succeeds on lanes 0..7, the slide built
    from the decoded pattern and reflect position encodes back to [c].  No
    decoded pattern is ambiguous on the lanes it was decoded for, so the
    encoder never raises here. *)
Theorem pattern_code_round_trip (c s e : Z) (p : string) (r : option Z)
    (m d dl : Q) (note : SimaiNote) :
  0 <= s <= 7 -> 0 <= e <= 7 ->
  simai_pattern_from_int c s e = Ok (p, r) ->
  SimaiSlideNote m s e d p dl r = Ok note ->
  simai_pattern_to_int note = Ok (Some c).
Proof.
  intros Hs He Hdec Hnote.
  apply SimaiSlideNote_Ok in Hnote. subst note.
  assert (Hc : In c [1; 2; 3; 4; 5; 6; 7; 8; 9; 10; 11; 12; 13])
    by (apply (simai_pattern_from_int_codes c s e); rewrite Hdec; reflexivity).
  simpl in Hc.
  repeat (destruct Hc as [Hc | Hc]; [subst c |]); try contradiction;
    try (injection Hdec as <- <-; reflexivity);
    lane_cases s; lane_cases e;
    vm_compute in Hdec; injection Hdec as <- <-; reflexivity.
Qed.

Lemma pattern_code_round_trip_witness :
  simai_pattern_to_int
    (SlideNote (round4 1) 6 complete_slide (round4 (1 # 2)) 1 "V"
               (round4 (1 # 4)) (Some 0))
  = Ok (Some 12).
Proof.
  apply (pattern_code_round_trip 12 6 1 "V" (Some 0) 1 (1 # 2) (1 # 4));
    [lia | lia | reflexivity | reflexivity].
Defined.

(* ================================================================= *)
(** ** Rounding *)

Lemma py_round_nonpos (x : Q) : (x <= 0)%Q -> py_round x <= 0.
Proof.
  destruct x as [n d]. intros Hn. unfold Qle in Hn. simpl in Hn.
  unfold py_round. cbn [Qnum Qden].
  assert (Hd : 0 < Z.pos d) by lia.
  pose proof (Z.mod_pos_bound n (Z.pos d) Hd) as Hm.
  pose proof (Z.div_mod n (Z.pos d) ltac:(lia)) as Hdm.
  destruct (Z.ltb_spec (2 * (n mod Z.pos d)) (Z.pos d)).
  - nia.
  - assert (n / Z.pos d <= -1) by nia.
    destruct (Z.ltb_spec (Z.pos d) (2 * (n mod Z.pos d))); [lia |].
    destruct (Z.even _); lia.
Qed.

Lemma py_round_neg (x : Q) : (x < - (1 # 2))%Q -> py_round x < 0.
Proof.
  destruct x as [n d]. intros Hn. unfold Qlt in Hn. simpl in Hn.
  unfold py_round. cbn [Qnum Qden].
  assert (Hd : 0 < Z.pos d) by lia.
  pose proof (Z.mod_pos_bound n (Z.pos d) Hd) as Hm.
  pose proof (Z.div_mod n (Z.pos d) ltac:(lia)) as Hdm.
  assert (Hf : n / Z.pos d <= -1) by nia.
  destruct (Z.ltb_spec (2 * (n mod Z.pos d)) (Z.pos d)); [lia |].
  assert (n / Z.pos d <= -2) by nia.
  destruct (Z.ltb_spec (Z.pos d) (2 * (n mod Z.pos d))); [lia |].
  destruct (Z.even _); lia.
Qed.

Lemma round4_nonpos (x : Q) : (x <= 0)%Q -> (round4 x <= 0)%Q.
Proof.
  intros Hx. unfold round4.
  assert (H : py_round (10000 * x) <= 0).
  { apply py_round_nonpos.
    setoid_replace 0%Q with (10000 * 0)%Q by ring.
    apply Qmult_le_l; [reflexivity | exact Hx]. }
  unfold Qle. simpl. lia.
Qed.

Lemma round4_neg (x : Q) : (x < - (1 # 20000))%Q -> (round4 x < 0)%Q.
Proof.
  intros Hx. unfold round4.
  assert (H : py_round (10000 * x) < 0).
  { apply py_round_neg.
    setoid_replace (- (1 # 2))%Q with (10000 * - (1 # 20000))%Q
      by reflexivity.
    apply Qmult_lt_l; [reflexivity | exact Hx]. }
  unfold Qlt. simpl. lia.
Qed.

Lemma Qlt_bool_iff (a b : Q) : Qlt_bool a b = true <-> (a < b)%Q.
Proof.
  unfold Qlt_bool. rewrite negb_true_iff.
  destruct (Qle_bool b a) eqn:E.
  - apply Qle_bool_iff in E. split; [discriminate |].
    intros H. exfalso. exact (Qlt_not_le _ _ H E).
  - split; [intros _ | reflexivity].
    apply Qnot_le_lt. intros H. apply Qle_bool_iff in H. congruence.
Qed.

(* ================================================================= *)
(** ** Validation at insertion *)

(** *** Rounding to the nearest integer and to the grid of 1e-4 *)

(** [round] is within one half of its argument. *)
Lemma py_round_bounds (x : Q) :
  - Z.pos (Qden x) <= 2 * (py_round x * Z.pos (Qden x) - Qnum x)
  <= Z.pos (Qden x).
Proof.
  unfold py_round. destruct x as [n d]. cbn [Qnum Qden].
  pose proof (Z.div_mod n (Z.pos d) ltac:(lia)) as Hdm.
  pose proof (Z.mod_pos_bound n (Z.pos d) ltac:(lia)) as Hb.
  destruct (Z.ltb_spec (2 * (n mod Z.pos d)) (Z.pos d));
    [nia |].
  destruct (Z.ltb_spec (Z.pos d) (2 * (n mod Z.pos d))); [nia |].
  destruct (Z.even (n / Z.pos d)); nia.
Qed.

Lemma py_round_close (x : Q) :
  (Qabs (inject_Z (py_round x) - x) <= 1 # 2)%Q.
Proof.
  pose proof (py_round_bounds x) as H.
  apply Qabs_Qle_condition. destruct x as [n d].
  cbn [Qnum Qden] in H. unfold Qle, Qminus, Qplus, Qopp, inject_Z.
  cbn [Qnum Qden]. split; nia.
Qed.

(** [round] gives the same integer on equal rationals. *)
Lemma py_round_comp (x y : Q) : (x == y)%Q -> py_round x = py_round y.
Proof.
  intros E. pose proof (Qfloor_comp x y E) as Hf.
  unfold Qfloor in Hf. unfold py_round.
  destruct x as [n1 d1], y as [n2 d2]. cbn [Qnum Qden] in *.
  unfold Qeq in E. cbn [Qnum Qden] in E.
  rewrite Hf.
  rewrite !Z.mod_eq by lia. rewrite Hf.
  set (f := n2 / Z.pos d2).
  assert (H1 : (2 * (n1 - Z.pos d1 * f) <? Z.pos d1)
               = (2 * (n2 - Z.pos d2 * f) <? Z.pos d2)).
  { destruct (Z.ltb_spec (2 * (n1 - Z.pos d1 * f)) (Z.pos d1)),
             (Z.ltb_spec (2 * (n2 - Z.pos d2 * f)) (Z.pos d2));
      try reflexivity; exfalso; nia. }
  assert (H2 : (Z.pos d1 <? 2 * (n1 - Z.pos d1 * f))
               = (Z.pos d2 <? 2 * (n2 - Z.pos d2 * f))).
  { destruct (Z.ltb_spec (Z.pos d1) (2 * (n1 - Z.pos d1 * f))),
             (Z.ltb_spec (Z.pos d2) (2 * (n2 - Z.pos d2 * f)));
      try reflexivity; exfalso; nia. }
  rewrite H1, H2. reflexivity.
Qed.

Lemma py_round_inject_Z (z : Z) : py_round (inject_Z z) = z.
Proof.
  unfold py_round, inject_Z. cbn [Qnum Qden].
  rewrite Z.div_1_r, Z.mod_1_r. reflexivity.
Qed.

Lemma py_round_whole (x : Q) (z : Z) :
  (x == inject_Z z)%Q -> py_round x = z.
Proof.
  intros E. rewrite (py_round_comp _ _ E). apply py_round_inject_Z.
Qed.


Lemma round4_comp (x y : Q) : (x == y)%Q -> round4 x = round4 y.
Proof.
  intros E. unfold round4. f_equal. apply py_round_comp.
  rewrite E. reflexivity.
Qed.

Lemma round4_close (x : Q) : (Qabs (round4 x - x) <= 1 # 20000)%Q.
Proof.
  pose proof (py_round_bounds (10000 * x)) as H.
  apply Qabs_Qle_condition. unfold round4.
  set (k := py_round (10000 * x)) in *. clearbody k.
  destruct x as [n d]. cbn [Qnum Qden Qmult Pos.mul] in H.
  unfold Qle, Qminus, Qplus, Qopp. cbn [Qnum Qden]. split; nia.
Qed.

(** C2, as the code has it.  [add_slide] raises, and leaves the chart as
    it was, whenever the duration is non-positive (or rounds to a
    non-positive value at 1e-4) or the delay rounded to 1e-4 is negative,
    which every delay below -0.00005 is. *)
Theorem add_slide_rejects (m : Q) (s e : Z) (d : Q) (p : string) (dl : Q)
    (r : option Z) (self : SimaiChart) :
  (d <= 0 \/ round4 d <= 0 \/ round4 dl < 0 \/ dl < - (1 # 20000))%Q ->
  exists err, add_slide m s e d p dl r self = (self, Raise err).
Proof.
  intros H. unfold add_slide, SimaiSlideNote.
  assert (Hcases : (round4 d <= 0 \/ round4 dl < 0)%Q).
  { destruct H as [H | [H | [H | H]]].
    - left. apply round4_nonpos, H.
    - left. exact H.
    - right. exact H.
    - right. apply round4_neg, H. }
  destruct (Qle_bool (round4 d) 0) eqn:Ed; [eexists; reflexivity |].
  destruct Hcases as [Hd | Hdl].
  - apply Qle_bool_iff in Hd. congruence.
  - apply Qlt_bool_iff in Hdl. rewrite Hdl. eexists; reflexivity.
Qed.

Lemma add_slide_rejects_witness :
  exists err,
    add_slide 1 0 4 0 "-" (1 # 4) None SimaiChart_init
    = (SimaiChart_init, Raise err).
Proof.
  apply (add_slide_rejects 1 0 4 0 "-" (1 # 4) None SimaiChart_init).
  left. unfold Qle. simpl. lia.
Defined.

(** C2 fails as stated: a hold of duration 0 (or -1) is appended without
    any error, and so is a slide whose negative delay rounds to zero. *)
Lemma add_hold_accepts_nonpositive_duration :
  add_hold 1 0 0 false SimaiChart_init
  = (mkChart [HoldNote (10000 # 10000) 0 hold (0 # 10000)] [], Ok tt) /\
  add_hold 1 0 (-1) false SimaiChart_init
  = (mkChart [HoldNote (10000 # 10000) 0 hold (-10000 # 10000)] [], Ok tt) /\
  add_slide 1 0 4 1 "-" (- (1 # 100000)) None SimaiChart_init
  = (mkChart [SlideNote (10000 # 10000) 0 complete_slide (10000 # 10000)
                        4 "-" (0 # 10000) None] [],
     Ok tt).
Proof. split; [| split]; reflexivity. Qed.

(* ================================================================= *)
(** ** The time shift *)

Lemma set_measure_fields (m : Q) (n : SimaiNote) :
  measure (set_measure m n) = m /\
  position (set_measure m n) = position n /\
  note_type (set_measure m n) = note_type n /\
  duration (set_measure m n) = duration n /\
  end_position (set_measure m n) = end_position n /\
  pattern (set_measure m n) = pattern n /\
  delay (set_measure m n) = delay n /\
  reflect_position (set_measure m n) = reflect_position n /\
  zone (set_measure m n) = zone n /\
  is_firework (set_measure m n) = is_firework n.
Proof. destruct n; repeat split. Qed.

Lemma set_measure_back (m : Q) (n : SimaiNote) :
  set_measure (measure n) (set_measure m n) = n.
Proof. destruct n; reflexivity. Qed.

(** C7.  [offset] never raises; it keeps both sequences' lengths and
    order.  The note at each index gets a measure on the grid of 1e-4
    (an integer [k] over 10000) that is at most half a grid step, 0.00005,
    away from [measure + offset], and keeps its variant and every other
    field.  The tempo marker at each index keeps its bpm; it keeps its
    measure when that is exactly 1.0, and otherwise gets a measure on the
    grid at most 0.00005 away from [measure + offset]. *)
Theorem offset_shifts_measures_only (o : Q) (self : SimaiChart) :
  snd (offset o self) = Ok tt /\
  List.length (notes (fst (offset o self))) = List.length (notes self) /\
  List.length (bpms (fst (offset o self))) = List.length (bpms self) /\
  (forall i n, nth_error (notes self) i = Some n ->
     exists (n' : SimaiNote) (k : Z),
       nth_error (notes (fst (offset o self))) i = Some n' /\
       measure n' = k # 10000 /\
       (Qabs (measure n' - (measure n + o)) <= 1 # 20000)%Q /\
       set_measure (measure n) n' = n /\
       position n' = position n /\ note_type n' = note_type n /\
       duration n' = duration n /\ end_position n' = end_position n /\
       pattern n' = pattern n /\ delay n' = delay n /\
       reflect_position n' = reflect_position n /\
       zone n' = zone n /\ is_firework n' = is_firework n) /\
  (forall i b, nth_error (bpms self) i = Some b ->
     exists b', nth_error (bpms (fst (offset o self))) i = Some b' /\
       bpm b' = bpm b /\
       (bpm_measure b == 1 -> bpm_measure b' = bpm_measure b) /\
       (~ bpm_measure b == 1 ->
          exists k : Z,
            bpm_measure b' = k # 10000 /\
            (Qabs (bpm_measure b' - (bpm_measure b + o)) <= 1 # 20000)%Q)).
Proof.
  unfold offset. cbn [fst snd notes bpms].
  split; [reflexivity |].
  split; [apply length_map |].
  split; [apply length_map |].
  split.
  - intros i n Hn.
    exists (offset_note o n), (py_round (10000 * (measure n + o))). split.
    + rewrite nth_error_map, Hn. reflexivity.
    + unfold offset_note.
      pose proof (set_measure_fields (round4 (measure n + o)) n) as F.
      pose proof (set_measure_back (round4 (measure n + o)) n) as B.
      destruct F as (Fm & F).
      split; [rewrite Fm; reflexivity |].
      split; [rewrite Fm; apply round4_close |].
      tauto.
  - intros i b Hb. exists (offset_bpm o b). split.
    + rewrite nth_error_map, Hb. reflexivity.
    + unfold offset_bpm.
      destruct (Qeq_bool (bpm_measure b) 1) eqn:E.
      * apply Qeq_bool_iff in E. repeat split; tauto.
      * split; [reflexivity |].
        split; [intros H; apply Qeq_bool_iff in H; congruence |].
        intros _. exists (py_round (10000 * (bpm_measure b + o))).
        cbn [bpm_measure]. split; [reflexivity | apply round4_close].
Qed.

(* ================================================================= *)
(** ** The time converter: validation and sorting *)

Lemma _check_bpms_raises (bpms : list (Q * Q)) :
  raises (_check_bpms bpms) <->
  bpms = [] \/ (forall b, In b bpms -> ~ (0 <= fst b <= 1)%Q).
Proof.
  unfold _check_bpms. destruct bpms as [| b0 l].
  - simpl. split; [intros _; left; reflexivity | intros _; apply raises_Raise].
  - cbn [List.length Nat.eqb].
    set (w := fun x : Q * Q => Qle_bool 0 (fst x) && Qle_bool (fst x) 1).
    destruct (filter w (b0 :: l)) as [| b1 f] eqn:Ef.
    + simpl. split; [intros _ | intros _; apply raises_Raise].
      right. intros b Hb [H0 H1].
      assert (Hin : In b (filter w (b0 :: l))).
      { apply filter_In. split; [exact Hb |]. unfold w.
        apply andb_true_iff. split; apply Qle_bool_iff; assumption. }
      rewrite Ef in Hin. exact Hin.
    + simpl. split.
      * intros Hr. exfalso. exact (raises_Ok _ Hr).
      * intros [H | H]; [discriminate H |]. exfalso.
        assert (Hin : In b1 (filter w (b0 :: l))) by (rewrite Ef; left; reflexivity).
        apply filter_In in Hin. destruct Hin as [Hin Hw].
        unfold w in Hw. apply andb_true_iff in Hw. destruct Hw as [H0 H1].
        apply Qle_bool_iff in H0, H1. exact (H b1 Hin (conj H0 H1)).
Qed.

Lemma not_Qle_bool_Qlt (a b : Q) : (b < a)%Q -> Qle_bool a b = false.
Proof.
  intros H. destruct (Qle_bool a b) eqn:E; [| reflexivity].
  apply Qle_bool_iff in E. exfalso. exact (Qlt_not_le _ _ H E).
Qed.

(** C9, as the code has it.  Past the guard, that is for a query measure
    above 1.0 (resp. a query time above 0.0), both converters raise when
    the list is empty or has no breakpoint at or before measure 1.0, and
    the list is left as it was.  At or below the guard's threshold they
    return 0.0 (resp. 1.0) whatever the list is, and leave it as it
    was. *)
Theorem converters_reject_bad_breakpoints (x : Q) (bpms : list (Q * Q)) :
  (bpms = [] \/ (forall b, In b bpms -> ~ (fst b <= 1)%Q) ->
   ((1 < x)%Q ->
      exists err, measure_to_second x bpms = (bpms, Raise err)) /\
   ((0 < x)%Q ->
      exists err, second_to_measure x bpms = (bpms, Raise err))) /\
  ((x <= 1)%Q -> measure_to_second x bpms = (bpms, Ok 0%Q)) /\
  ((x <= 0)%Q -> second_to_measure x bpms = (bpms, Ok 1%Q)).
Proof.
  split; [| split].
  - intros H.
    assert (Hr : raises (_check_bpms bpms)).
    { apply _check_bpms_raises. destruct H as [H | H]; [left; exact H |].
      right. intros b Hb [_ H1]. exact (H b Hb H1). }
    destruct Hr as [err Hr].
    split; intros Hx.
    + unfold measure_to_second. rewrite (not_Qle_bool_Qlt _ _ Hx), Hr.
      exists err. reflexivity.
    + unfold second_to_measure. rewrite (not_Qle_bool_Qlt _ _ Hx), Hr.
      exists err. reflexivity.
  - intros Hx. unfold measure_to_second.
    apply Qle_bool_iff in Hx. rewrite Hx. reflexivity.
  - intros Hx. unfold second_to_measure.
    apply Qle_bool_iff in Hx. rewrite Hx. reflexivity.
Qed.

Lemma converters_reject_bad_breakpoints_witness :
  (exists err, measure_to_second 2%Q [(3%Q, 120%Q)] = ([(3%Q, 120%Q)], Raise err)) /\
  (exists err, second_to_measure 2%Q [] = ([], Raise err)) /\
  measure_to_second (1 # 2) [(3%Q, 120%Q)] = ([(3%Q, 120%Q)], Ok 0%Q) /\
  second_to_measure (- (1 # 2)) [] = ([], Ok 1%Q).
Proof.
  split; [| split; [| split]].
  - apply (proj1 (converters_reject_bad_breakpoints 2%Q [(3%Q, 120%Q)])).
    + right. intros b [<- | []]. unfold Qle. simpl. lia.
    + reflexivity.
  - apply (proj1 (converters_reject_bad_breakpoints 2%Q [])).
    + left. reflexivity.
    + reflexivity.
  - apply (proj1 (proj2 (converters_reject_bad_breakpoints
                           (1 # 2) [(3%Q, 120%Q)]))).
    unfold Qle. simpl. lia.
  - apply (proj2 (proj2 (converters_reject_bad_breakpoints (- (1 # 2)) []))).
    unfold Qle. simpl. lia.
Defined.

(** C9 fails as stated: at or below the guard's threshold the converters
    return without looking at the list, even an empty one. *)
Lemma converters_accept_empty_list_below_guard :
  measure_to_second (1 # 2) [] = ([], Ok 0%Q) /\
  measure_to_second 1%Q [] = ([], Ok 0%Q) /\
  second_to_measure 0%Q [] = ([], Ok 1%Q) /\
  second_to_measure (-5)%Q [(7%Q, 120%Q)] = ([(7%Q, 120%Q)], Ok 1%Q).
Proof. repeat (split; [reflexivity |]). reflexivity. Qed.

(** *** The stable sort *)

Section Sorting.
Context {A : Type} (key : A -> Q).

Lemma sort_insert_perm (x : A) (l : list A) :
  Permutation (x :: l) (sort_insert (key_le key) x l).
Proof.
  induction l as [| y l IH]; simpl; [apply Permutation_refl |].
  destruct (key_le key x y); [apply Permutation_refl |].
  eapply perm_trans; [apply perm_swap |]. apply perm_skip, IH.
Qed.

Lemma py_sorted_perm (l : list A) :
  Permutation l (py_sorted (key_le key) l).
Proof.
  induction l as [| x l IH]; simpl; [apply perm_nil |].
  eapply perm_trans; [apply perm_skip, IH | apply sort_insert_perm].
Qed.

Lemma sort_insert_sorted (x : A) (l : list A) :
  StronglySorted (key_ordered key) l ->
  StronglySorted (key_ordered key) (sort_insert (key_le key) x l).
Proof.
  induction l as [| y l IH]; intros Hs; simpl.
  - constructor; constructor.
  - inversion Hs as [| ? ? Hl Hy]; subst.
    unfold key_le at 1. destruct (Qle_bool (key x) (key y)) eqn:E.
    + apply Qle_bool_iff in E. constructor; [exact Hs |].
      constructor; [exact E |].
      eapply Forall_impl; [| exact Hy].
      intros a Ha. unfold key_ordered in *. eapply Qle_trans; eassumption.
    + assert (Hyx : (key y <= key x)%Q).
      { apply Qlt_le_weak, Qnot_le_lt. intros H.
        apply Qle_bool_iff in H. congruence. }
      constructor; [apply IH, Hl |].
      eapply Permutation_Forall; [apply sort_insert_perm |].
      constructor; assumption.
Qed.

Lemma py_sorted_sorted (l : list A) :
  StronglySorted (key_ordered key) (py_sorted (key_le key) l).
Proof.
  induction l as [| x l IH]; simpl; [constructor |].
  apply sort_insert_sorted, IH.
Qed.

(** Sorting a list that is already in order changes nothing. *)
Lemma py_sorted_id (l : list A) :
  StronglySorted (key_ordered key) l -> py_sorted (key_le key) l = l.
Proof.
  induction 1 as [| x l Hl IH Hx]; simpl; [reflexivity |].
  rewrite IH. destruct l as [| y l]; [reflexivity |]. simpl.
  inversion Hx as [| ? ? Hxy _]; subst.
  unfold key_le. apply Qle_bool_iff in Hxy. rewrite Hxy. reflexivity.
Qed.

End Sorting.

(** C10, as the code has it.  The list is sorted in place only by a call
    that gets past the guard and the breakpoint check.  For a query above
    1.0 (resp. 0.0) and a list with a breakpoint whose measure lies
    between 0 and 1.0, the list after the call is a permutation of the
    one passed in, in ascending order of measure.  A call on a list
    without such a breakpoint (it raises, or returns early) and a call
    with a query at or below the threshold (it returns early) leave the
    list as it was. *)
Theorem converters_sort_in_place (x : Q) (bpms : list (Q * Q)) :
  ((exists b, In b bpms /\ (0 <= fst b <= 1)%Q) ->
   ((1 < x)%Q ->
      StronglySorted (key_ordered fst) (fst (measure_to_second x bpms)) /\
      Permutation bpms (fst (measure_to_second x bpms))) /\
   ((0 < x)%Q ->
      StronglySorted (key_ordered fst) (fst (second_to_measure x bpms)) /\
      Permutation bpms (fst (second_to_measure x bpms)))) /\
  ((forall b, In b bpms -> ~ (0 <= fst b <= 1)%Q) ->
   fst (measure_to_second x bpms) = bpms /\
   fst (second_to_measure x bpms) = bpms) /\
  ((x <= 1)%Q -> fst (measure_to_second x bpms) = bpms) /\
  ((x <= 0)%Q -> fst (second_to_measure x bpms) = bpms).
Proof.
  split; [| split; [| split]].
  - intros (b & Hb & Hb01).
    assert (Hc : _check_bpms bpms = Ok tt).
    { destruct (_check_bpms bpms) as [[] | e] eqn:E; [reflexivity |].
      exfalso.
      assert (Hr : raises (_check_bpms bpms))
        by (rewrite E; apply raises_Raise).
      apply _check_bpms_raises in Hr. destruct Hr as [-> | Hr].
      - destruct Hb.
      - exact (Hr b Hb Hb01). }
    assert (Hs : StronglySorted (key_ordered fst) (sort_bpms bpms))
      by apply (py_sorted_sorted fst).
    assert (Hp : Permutation bpms (sort_bpms bpms))
      by apply (py_sorted_perm fst).
    split; intros Hx.
    + unfold measure_to_second. rewrite (not_Qle_bool_Qlt _ _ Hx), Hc.
      destruct (sort_bpms bpms) as [| [? ?] ?]; split; assumption.
    + unfold second_to_measure. rewrite (not_Qle_bool_Qlt _ _ Hx), Hc.
      destruct (sort_bpms bpms) as [| [? ?] ?]; split; assumption.
  - intros Hnone.
    assert (Hr : raises (_check_bpms bpms))
      by (apply _check_bpms_raises; right; exact Hnone).
    destruct Hr as [err Hr].
    unfold measure_to_second, second_to_measure. rewrite Hr.
    split.
    + destruct (Qle_bool x 1); reflexivity.
    + destruct (Qle_bool x 0); reflexivity.
  - intros Hx. unfold measure_to_second.
    apply Qle_bool_iff in Hx. rewrite Hx. reflexivity.
  - intros Hx. unfold second_to_measure.
    apply Qle_bool_iff in Hx. rewrite Hx. reflexivity.
Qed.

Lemma converters_sort_in_place_witness :
  fst (measure_to_second 4%Q [(3%Q, 150%Q); (1%Q, 120%Q); (2%Q, 90%Q)])
  = [(1%Q, 120%Q); (2%Q, 90%Q); (3%Q, 150%Q)] /\
  StronglySorted (key_ordered fst)
    (fst (second_to_measure 4%Q [(3%Q, 150%Q); (1%Q, 120%Q); (2%Q, 90%Q)])) /\
  fst (measure_to_second 5%Q [(3%Q, 120%Q); (2%Q, 100%Q)])
  = [(3%Q, 120%Q); (2%Q, 100%Q)].
Proof.
  split; [reflexivity |]. split.
  - apply (proj1 (converters_sort_in_place
                    4%Q [(3%Q, 150%Q); (1%Q, 120%Q); (2%Q, 90%Q)])).
    + exists (1%Q, 120%Q). split; [right; left; reflexivity |].
      split; unfold Qle; simpl; lia.
    + reflexivity.
  - apply (proj1 (proj2 (converters_sort_in_place
                           5%Q [(3%Q, 120%Q); (2%Q, 100%Q)]))).
    intros b [<- | [<- | []]] [_ H]; unfold Qle in H; simpl in H; lia.
Defined.

(** C10 fails as stated: a call that does not return early but raises in
    the breakpoint check leaves the list unsorted. *)
Lemma converters_leave_rejected_list_unsorted :
  measure_to_second 5%Q [(3%Q, 120%Q); (2%Q, 100%Q)]
  = ([(3%Q, 120%Q); (2%Q, 100%Q)],
     Raise (ValueError "No starting BPM defined.")) /\
  second_to_measure 5%Q [(3%Q, 120%Q); (2%Q, 100%Q)]
  = ([(3%Q, 120%Q); (2%Q, 100%Q)],
     Raise (ValueError "No starting BPM defined.")) /\
  ~ StronglySorted (key_ordered fst) [(3%Q, 120%Q); (2%Q, 100%Q)].
Proof.
  split; [reflexivity |]. split; [reflexivity |].
  intros H. inversion H as [| ? ? _ Hall]; subst.
  inversion Hall as [| ? ? Hlt _]; subst.
  unfold key_ordered, Qle in Hlt. simpl in Hlt. lia.
Qed.

(* ================================================================= *)
(** ** [Fraction.limit_denominator] *)









(* ================================================================= *)
(** ** The rest calculator *)



(** *** The float difference *)









(** The float difference at work: the doubles nearest to 2.01 and 1.01
    are [0.9999999999999998] apart, so the whole part is 0 and the
    remainder rounds to one whole measure; 12.7 and 5.7 are
    [6.999999999999999] apart. *)
Example simai_get_rest_float_difference :
  simai_get_rest (101 # 100) (201 # 100) = Ok (Some (0, 1, 1)) /\
  simai_get_rest (57 # 10) (127 # 10) = Ok (Some (6, 1, 1)) /\
  simai_get_rest (10001 # 10000) (40001 # 10000) = Ok (Some (3, 1, 0)).
Proof. repeat split; vm_compute; reflexivity. Qed.


(* ================================================================= *)
(** ** The time converter: round trip *)

Lemma isclose_near (a b : Q) :
  (a - b <= tol)%Q -> (b - a <= tol)%Q -> isclose a b = true.
Proof.
  intros H1 H2. unfold isclose. apply Qle_bool_iff.
  eapply Qle_trans; [| apply Q.le_max_r].
  apply Qabs_Qle_condition. unfold tol in *. lra.
Qed.

Lemma isclose_false (a b : Q) :
  isclose a b = false -> (a + tol < b)%Q \/ (b + tol < a)%Q.
Proof.
  intros H.
  destruct (Qlt_le_dec (a + tol) b) as [? | H1]; [left; assumption |].
  destruct (Qlt_le_dec (b + tol) a) as [? | H2]; [right; assumption |].
  rewrite isclose_near in H; [discriminate H | lra | lra].
Qed.

Lemma isclose_true (a b : Q) :
  (Qabs a <= 500000)%Q -> (Qabs b <= 500000)%Q ->
  isclose a b = true -> (a - b <= tol)%Q /\ (b - a <= tol)%Q.
Proof.
  intros Ha Hb H. unfold isclose in H. apply Qle_bool_iff in H.
  assert (Hmax : (Qmax ((1 # 1000000000) * Qmax (Qabs a) (Qabs b))
                       (5 # 10000) <= tol)%Q).
  { apply Q.max_lub; [| unfold tol; lra].
    assert (Qmax (Qabs a) (Qabs b) <= 500000)%Q by (apply Q.max_lub; assumption).
    unfold tol. lra. }
  apply Qabs_Qle_condition in H. lra.
Qed.

Lemma isclose_far (a b : Q) :
  (Qabs a <= 500000)%Q -> (Qabs b <= 500000)%Q ->
  (a + tol < b)%Q \/ (b + tol < a)%Q -> isclose a b = false.
Proof.
  intros Ha Hb H. destruct (isclose a b) eqn:E; [| reflexivity].
  apply isclose_true in E; [| assumption | assumption]. lra.
Qed.

Lemma py_div_ok (a b : Q) : ~ (b == 0)%Q -> py_div a b = Ok (a / b)%Q.
Proof.
  intros Hb. unfold py_div. destruct (Qeq_bool b 0) eqn:E; [| reflexivity].
  apply Qeq_bool_iff in E. contradiction.
Qed.

Lemma Qlt_bool_false (a b : Q) : Qlt_bool a b = false <-> (b <= a)%Q.
Proof.
  unfold Qlt_bool. rewrite negb_false_iff. apply Qle_bool_iff.
Qed.

(** A gap of [g] measures lasts between [g] and [240 g] seconds at a
    tempo between 1 and 240. *)
Lemma gap_time_bounds (g b : Q) :
  (0 <= g)%Q -> (1 <= b <= 240)%Q ->
  (g <= 60 * 4 * g / b <= 240 * g)%Q.
Proof.
  intros Hg Hb. split.
  - apply Qle_shift_div_l; [lra | nra].
  - apply Qle_shift_div_r; [lra | nra].
Qed.

Lemma gap_time_diff (x y pm b : Q) :
  ~ (b == 0)%Q ->
  (60 * 4 * (x - pm) / b - 60 * 4 * (y - pm) / b == 60 * 4 * (x - y) / b)%Q.
Proof. intros Hb. field. exact Hb. Qed.

Lemma gap_time_inverse (m pm pt pt' b : Q) :
  ~ (b == 0)%Q -> (pt == pt')%Q ->
  (pm + (pt + 60 * 4 * (m - pm) / b - pt') * b / (60 * 4) == m)%Q.
Proof. intros Hb Hpt. rewrite Hpt. field. exact Hb. Qed.

Lemma gap_time_comm (g b : Q) :
  ~ (b == 0)%Q -> (60 * g * 4 / b == 60 * 4 * g / b)%Q.
Proof. intros Hb. field. exact Hb. Qed.

(** The two loops, started from the same state, invert each other: the
    forward walk returns a time [s] more than the tolerance after the
    state's own time, and the backward walk takes [s] back to within the
    tolerance of [m]. *)
Lemma loops_round_trip (m : Q) :
  (m <= 2000)%Q ->
  forall (rest : list (Q * Q)) (pm pb pt pt' : Q),
  (pt == pt')%Q -> (0 <= pm)%Q -> (pm + tol < m)%Q ->
  (-240 <= pt <= 240 * pm)%Q -> (1 <= pb <= 240)%Q ->
  Forall ordinary rest ->
  StronglySorted spaced ((pm, pb) :: rest) ->
  exists s r,
    measure_to_second_loop m pm pb pt rest = Ok s /\
    (pt + tol < s <= 480000)%Q /\
    second_to_measure_loop s pm pt' pb rest = Ok r /\
    (Qabs (r - m) <= tol)%Q.
Proof.
  intros Hm rest.
  induction rest as [| [cm cb] rest IH];
    intros pm pb pt pt' Hpt Hpm Hpmm Hptb Hpb Hord Hsort.
  - (* the list is exhausted *)
    assert (Hb0 : ~ (pb == 0)%Q) by (intros E; rewrite E in Hpb; lra).
    pose proof (gap_time_bounds (m - pm) pb ltac:(unfold tol in *; lra) Hpb)
      as Hu.
    cbn [measure_to_second_loop second_to_measure_loop].
    unfold measure_to_second_end, second_to_measure_end.
    rewrite py_div_ok by exact Hb0. cbn [bind].
    eexists. eexists. split; [reflexivity |].
    split; [unfold tol in *; lra |]. split; [reflexivity |].
    rewrite (gap_time_inverse m pm pt pt' pb Hb0 Hpt).
    setoid_replace (m - m)%Q with 0%Q by ring.
    unfold tol. apply Qabs_Qle_condition. lra.
  - (* a breakpoint [cm, cb] *)
    assert (Hb0 : ~ (pb == 0)%Q) by (intros E; rewrite E in Hpb; lra).
    inversion Hsort as [| ? ? Hsort' Hhd]; subst.
    inversion Hhd as [| ? ? Hgap _]; subst.
    inversion Hord as [| ? ? [Hcm Hcb] Hord']; subst.
    unfold spaced in Hgap. cbn [fst snd] in Hgap, Hcm, Hcb.
    pose proof (gap_time_bounds (cm - pm) pb ltac:(unfold tol in *; lra) Hpb)
      as Hu.
    pose proof (gap_time_comm (cm - pm) pb Hb0) as Hcomm.
    cbn [measure_to_second_loop second_to_measure_loop].
    rewrite !py_div_ok by exact Hb0. cbn [bind].
    set (ct := (pt + 60 * 4 * (cm - pm) / pb)%Q) in *.
    set (ct' := (pt' + 60 * (cm - pm) * 4 / pb)%Q) in *.
    assert (Hct : (ct == ct')%Q) by (unfold ct, ct'; rewrite Hcomm, Hpt; reflexivity).
    assert (Hctb : (pt + tol < ct <= 240 * cm)%Q)
      by (unfold ct, tol in *; lra).
    assert (Babs : forall x, (-240 <= x <= 480000)%Q -> (Qabs x <= 500000)%Q)
      by (intros x Hx; apply Qabs_Qle_condition; lra).
    assert (Bm : (Qabs m <= 500000)%Q)
      by (apply Qabs_Qle_condition; unfold tol in *; lra).
    assert (Bcm : (Qabs cm <= 500000)%Q)
      by (apply Qabs_Qle_condition; unfold tol in *; lra).
    destruct (isclose cm m) eqn:Eclose.
    + (* the query is at the breakpoint *)
      destruct (isclose_true cm m Bcm Bm Eclose) as [Hc1 Hc2].
      exists ct, cm. split; [reflexivity |].
      split; [unfold tol in *; lra |].
      rewrite isclose_near by (unfold tol; lra).
      split; [reflexivity |].
      apply Qabs_Qle_condition. lra.
    + apply isclose_false in Eclose.
      destruct (Qlt_bool m cm) eqn:Ebreak.
      * (* the query is before the breakpoint: break *)
        apply Qlt_bool_iff in Ebreak.
        assert (Hfar : (m + tol < cm)%Q) by (unfold tol in *; lra).
        pose proof (gap_time_bounds (m - pm) pb ltac:(unfold tol in *; lra) Hpb)
          as Hum.
        pose proof (gap_time_bounds (cm - m) pb ltac:(unfold tol in *; lra) Hpb)
          as Hud.
        pose proof (gap_time_diff cm m pm pb Hb0) as Hdiff.
        unfold measure_to_second_end. rewrite py_div_ok by exact Hb0.
        cbn [bind].
        set (s := (pt + 60 * 4 * (m - pm) / pb)%Q) in *.
        assert (Hs : (pt + tol < s <= 480000)%Q)
          by (unfold s, tol in *; lra).
        assert (Hcts : (s + tol < ct')%Q)
          by (rewrite <- Hct; unfold ct, s, tol in *; lra).
        exists s. eexists. split; [reflexivity |]. split; [exact Hs |].
        rewrite isclose_far;
          [| apply Babs; rewrite <- Hct; unfold tol in *; lra
           | apply Babs; unfold tol in *; lra
           | right; exact Hcts ].
        assert (Hlt : Qlt_bool s ct' = true)
          by (apply Qlt_bool_iff; unfold tol in *; lra).
        rewrite Hlt. unfold second_to_measure_end.
        split; [reflexivity |].
        unfold s. rewrite (gap_time_inverse m pm pt pt' pb Hb0 Hpt).
        setoid_replace (m - m)%Q with 0%Q by ring.
        unfold tol. apply Qabs_Qle_condition. lra.
      * (* the query is past the breakpoint: move on *)
        apply Qlt_bool_false in Ebreak.
        assert (Hfar : (cm + tol < m)%Q) by (unfold tol in *; lra).
        destruct (IH cm cb ct ct' Hct ltac:(unfold tol in *; lra) Hfar
                     ltac:(unfold tol in *; lra) Hcb Hord' Hsort')
          as (s & r & HM & Hs & HS & Hr).
        exists s, r. split; [exact HM |].
        split; [unfold tol in *; lra |].
        rewrite isclose_far;
          [| apply Babs; rewrite <- Hct; unfold tol in *; lra
           | apply Babs; unfold tol in *; lra
           | left; rewrite <- Hct; unfold tol in *; lra ].
        assert (Hlt : Qlt_bool s ct' = false)
          by (apply Qlt_bool_false; rewrite <- Hct; unfold tol in *; lra).
        rewrite Hlt. split; [exact HS | exact Hr].
Qed.

Lemma spaced_key_ordered (l : list (Q * Q)) :
  StronglySorted spaced l -> StronglySorted (key_ordered fst) l.
Proof.
  induction 1 as [| b l Hl IH Hb]; constructor; [exact IH |].
  eapply Forall_impl; [| exact Hb].
  intros c Hc. unfold spaced, key_ordered, tol in *. lra.
Qed.

Lemma _check_bpms_ok (b0 : Q * Q) (rest : list (Q * Q)) :
  (0 <= fst b0 <= 1)%Q -> _check_bpms (b0 :: rest) = Ok tt.
Proof.
  intros [H0 H1]. unfold _check_bpms. cbn [List.length Nat.eqb filter].
  apply Qle_bool_iff in H0, H1. rewrite H0, H1. reflexivity.
Qed.

Lemma gap_time_chain (y m1 b : Q) :
  ~ (b == 0)%Q ->
  (0 + 60 * 4 * (m1 - 1) / b + 60 * 4 * (y - m1) / b
   == 60 * 4 * (y - 1) / b)%Q.
Proof. intros Hb. field. exact Hb. Qed.

(** Past a first breakpoint at or before measure 1.0, with every later
    one at or after 1.0, the forward walk returns a positive time unless
    the query is within the tolerance of measure 1.0. *)
Lemma forward_time_positive (m m1 b1 s : Q) (rest : list (Q * Q)) :
  (0 <= m1 <= 1)%Q -> (1 <= b1 <= 240)%Q -> (1 < m <= 2000)%Q ->
  Forall ordinary rest ->
  Forall (fun b => (1 <= fst b)%Q) rest ->
  StronglySorted spaced ((m1, b1) :: rest) ->
  measure_to_second_loop m m1 b1 (0 + 60 * 4 * (m1 - 1) / b1) rest = Ok s ->
  (0 < s)%Q \/ (m <= 1 + tol)%Q.
Proof.
  intros Hm1 Hb1 Hm Hord Hge Hsort HM.
  assert (Hb0 : ~ (b1 == 0)%Q) by (intros E; rewrite E in Hb1; lra).
  pose proof (gap_time_chain m m1 b1 Hb0) as Hchm.
  pose proof (gap_time_bounds (m - 1) b1 ltac:(lra) Hb1) as Hum.
  destruct rest as [| [m2 b2] rest].
  - cbn [measure_to_second_loop] in HM. unfold measure_to_second_end in HM.
    rewrite py_div_ok in HM by exact Hb0. cbn [bind] in HM.
    injection HM as <-. left. lra.
  - inversion Hsort as [| ? ? Hsort' Hhd]; subst.
    inversion Hhd as [| ? ? Hgap _]; subst.
    inversion Hord as [| ? ? [Hcm Hcb] Hord']; subst.
    inversion Hge as [| ? ? Hm2 _]; subst.
    unfold spaced in Hgap. cbn [fst snd] in Hgap, Hcm, Hcb, Hm2.
    pose proof (gap_time_chain m2 m1 b1 Hb0) as Hch2.
    pose proof (gap_time_bounds (m2 - 1) b1 ltac:(lra) Hb1) as Hu2.
    cbn [measure_to_second_loop] in HM.
    rewrite py_div_ok in HM by exact Hb0. cbn [bind] in HM.
    set (ct2 := (0 + 60 * 4 * (m1 - 1) / b1 + 60 * 4 * (m2 - m1) / b1)%Q)
      in *.
    destruct (isclose m2 m) eqn:Eclose.
    + injection HM as <-.
      apply isclose_true in Eclose;
        [| apply Qabs_Qle_condition; lra | apply Qabs_Qle_condition; lra].
      destruct (Qlt_le_dec (1 + tol) m) as [Hbig | Hsmall];
        [left; lra | right; exact Hsmall].
    + apply isclose_false in Eclose.
      destruct (Qlt_bool m m2) eqn:Ebreak.
      * unfold measure_to_second_end in HM.
        rewrite py_div_ok in HM by exact Hb0. cbn [bind] in HM.
        injection HM as <-. left. lra.
      * apply Qlt_bool_false in Ebreak.
        destruct (loops_round_trip m ltac:(lra) rest m2 b2 ct2 ct2
                    ltac:(reflexivity) ltac:(lra)
                    ltac:(unfold tol in *; lra) ltac:(lra) Hcb Hord' Hsort')
          as (s' & r & HM' & Hs' & _).
        rewrite HM' in HM. injection HM as <-.
        left. unfold tol in *. lra.
Qed.

(** C8, as the code has it.  For a breakpoint list in ascending order
    whose first breakpoint lies in measures 0..1, whose later breakpoints
    lie at or after measure 1.0, all at most at measure 2000, more than
    0.0005 measures apart and with tempos between 1 and 240, and for a
    measure [m] from 0.9995 to 2000, converting [m] to seconds and back
    gives [m] within 0.0005. *)
Theorem time_round_trip (m : Q) (b0 : Q * Q) (rest : list (Q * Q)) :
  (0 <= fst b0 <= 1)%Q ->
  Forall ordinary (b0 :: rest) ->
  Forall (fun b => (1 <= fst b)%Q) rest ->
  StronglySorted spaced (b0 :: rest) ->
  (1 - tol <= m <= 2000)%Q ->
  exists r, round_trip m (b0 :: rest) = Ok r /\ (Qabs (r - m) <= tol)%Q.
Proof.
  intros Hm1 Hord Hge Hsort [Hlo Hhi].
  destruct b0 as [m1 b1]. cbn [fst] in Hm1.
  inversion Hord as [| ? ? [_ Hb1] Hord']; subst. cbn [snd] in Hb1.
  assert (Hb0 : ~ (b1 == 0)%Q) by (intros E; rewrite E in Hb1; lra).
  assert (Hid : sort_bpms ((m1, b1) :: rest) = (m1, b1) :: rest)
    by (apply py_sorted_id, spaced_key_ordered, Hsort).
  pose proof (_check_bpms_ok (m1, b1) rest Hm1) as Hcheck.
  unfold round_trip, measure_to_second.
  destruct (Qle_bool m 1) eqn:Eguard.
  - (* at or before the chart start *)
    apply Qle_bool_iff in Eguard. cbn [bind].
    exists 1%Q. split; [reflexivity |].
    apply Qabs_Qle_condition. unfold tol in *. lra.
  - assert (Hm : (1 < m)%Q).
    { apply Qnot_le_lt. intros H. apply Qle_bool_iff in H. congruence. }
    rewrite Hcheck, Hid. cbn [measure_to_second_loop].
    rewrite py_div_ok by exact Hb0. cbn [bind].
    pose proof (gap_time_bounds (1 - m1) b1 ltac:(lra) Hb1) as Hu1.
    assert (Hneg : (60 * 4 * (m1 - 1) / b1 == - (60 * 4 * (1 - m1) / b1))%Q)
      by (field; exact Hb0).
    set (ct1 := (0 + 60 * 4 * (m1 - 1) / b1)%Q) in *.
    assert (Hct1 : (-240 <= ct1 <= 0)%Q) by (unfold ct1; lra).
    assert (Sguard : forall s, (s <= 0)%Q ->
              snd (second_to_measure s ((m1, b1) :: rest)) = Ok 1%Q).
    { intros s Hs. unfold second_to_measure.
      apply Qle_bool_iff in Hs. rewrite Hs. reflexivity. }
    destruct (isclose m1 m) eqn:Eclose.
    + (* the query is at the first breakpoint *)
      apply isclose_true in Eclose;
        [| apply Qabs_Qle_condition; lra | apply Qabs_Qle_condition; lra].
      cbn [bind]. rewrite Sguard by lra.
      exists 1%Q. split; [reflexivity |].
      apply Qabs_Qle_condition. unfold tol in *. lra.
    + apply isclose_false in Eclose.
      assert (Hfar : (m1 + tol < m)%Q) by (unfold tol in *; lra).
      assert (Ebreak : Qlt_bool m m1 = false)
        by (apply Qlt_bool_false; lra).
      rewrite Ebreak.
      set (ct1' := (0 + 60 * (m1 - 1) * 4 / b1)%Q).
      assert (Hct : (ct1 == ct1')%Q)
        by (unfold ct1, ct1'; rewrite gap_time_comm by exact Hb0; reflexivity).
      destruct (loops_round_trip m Hhi rest m1 b1 ct1 ct1' Hct
                  ltac:(lra) Hfar ltac:(lra) Hb1 Hord' Hsort)
        as (s & r & HM & Hs & HS & Hr).
      rewrite HM. cbn [bind].
      destruct (Qlt_le_dec 0 s) as [Hpos | Hnp].
      * (* a positive time: the backward walk starts over *)
        unfold second_to_measure.
        assert (Eg : Qle_bool s 0 = false).
        { destruct (Qle_bool s 0) eqn:E; [| reflexivity].
          apply Qle_bool_iff in E. lra. }
        rewrite Eg, Hcheck, Hid. cbn [snd second_to_measure_loop].
        rewrite py_div_ok by exact Hb0. cbn [bind]. fold ct1'.
        rewrite isclose_far;
          [| apply Qabs_Qle_condition; rewrite <- Hct; lra
           | apply Qabs_Qle_condition; lra
           | left; rewrite <- Hct; lra ].
        assert (Hlt : Qlt_bool s ct1' = false)
          by (apply Qlt_bool_false; rewrite <- Hct; unfold tol in *; lra).
        rewrite Hlt. exists r. split; [exact HS | exact Hr].
      * (* a time of zero: the query is within the tolerance of 1.0 *)
        destruct (forward_time_positive m m1 b1 s rest Hm1 Hb1
                    (conj Hm Hhi) Hord' Hge Hsort HM) as [Hpos | Hnear];
          [lra |].
        rewrite Sguard by exact Hnp.
        exists 1%Q. split; [reflexivity |].
        apply Qabs_Qle_condition. unfold tol in *. lra.
Qed.

Lemma time_round_trip_witness :
  exists r,
    round_trip (5 # 2) [(1%Q, 120%Q); (2%Q, 180%Q)] = Ok r /\
    (Qabs (r - (5 # 2)) <= tol)%Q.
Proof.
  apply (time_round_trip (5 # 2) (1%Q, 120%Q) [(2%Q, 180%Q)]).
  - cbn [fst]. lra.
  - repeat constructor; cbn [fst snd]; lra.
  - repeat constructor; cbn [fst]; lra.
  - repeat constructor; unfold spaced, tol; cbn [fst]; lra.
  - unfold tol. lra.
Defined.

(** C8 fails as stated: a measure before the chart start maps to time 0,
    and time 0 maps back to measure 1.0. *)
Lemma round_trip_fails_before_chart_start :
  round_trip (1 # 2) [(1%Q, 120%Q)] = Ok 1%Q /\
  ~ (Qabs (1 - (1 # 2)) <= tol)%Q.
Proof.
  split; [reflexivity |]. unfold tol. intros H.
  apply Qabs_Qle_condition in H. lra.
Qed.

(** The bound on the tempo is needed: above 240 the tolerance of 0.0005
    seconds spans more than 0.0005 measures. *)
Lemma round_trip_fails_at_fast_tempo :
  round_trip (20009 # 10000) [(1%Q, 480%Q); (2%Q, 480%Q)] = Ok 2%Q.
Proof. vm_compute. reflexivity. Qed.

(** So is the spacing: two breakpoints closer than the tolerance are
    confused with one another. *)
Lemma round_trip_fails_at_close_breakpoints :
  round_trip (10006 # 10000) [(1%Q, 120%Q); (10001 # 10000, 120%Q)]
  = Ok 1%Q.
Proof. vm_compute. reflexivity. Qed.

(* ================================================================= *)
(** ** The parser: the scenario of the specification *)

(** C6, as the code has it.  For every tokenizer that reads the three
    fragments as the grammar says (a tempo change and lane 4, lane 1,
    lane 2, with lanes as buttons 0..7), parsing ["(120)4,1,2,E"] gives
    one tempo marker of 120 at measure 1.0 and taps at button 3, 0 and 1
    at measures 1.0, 1.25 and 1.5: each comma advances a quarter of a
    measure under the default divisor 4. *)
Theorem parse_scenario
    (tokenizer : string -> result (list FragmentRecord)) :
  tokenizer "(120)4" = Ok [BpmRecord (PyInt 120); TapRecord 3 None] ->
  tokenizer "1" = Ok [TapRecord 0 None] ->
  tokenizer "2" = Ok [TapRecord 1 None] ->
  simai_parse_chart_with tokenizer "(120)4,1,2,E"
  = Ok (mkChart [TapNote (10000 # 10000) 3 tap;
                 TapNote (12500 # 10000) 0 tap;
                 TapNote (15000 # 10000) 1 tap]
                [mkBPM (10000 # 10000) (PyInt 120)]).
Proof.
  intros H1 H2 H3. unfold simai_parse_chart_with.
  change (split_on "," (remove_whitespace "(120)4,1,2,E"))
    with ["(120)4"; "1"; "2"; "E"].
  cbn [parse_fragments String.eqb Ascii.eqb Bool.eqb].
  rewrite H1. cbn [bind parse_records]. 
  vm_compute (parse_record _ _). cbn [bind fst].
  vm_compute (advance _). cbn [bind parse_fragments String.eqb Ascii.eqb Bool.eqb].
  rewrite H2. cbn [bind parse_records].
  vm_compute (parse_record _ _). cbn [bind fst].
  vm_compute (advance _). cbn [bind parse_fragments String.eqb Ascii.eqb Bool.eqb].
  rewrite H3. cbn [bind parse_records].
  vm_compute (parse_record _ _). cbn [bind fst].
  vm_compute (advance _). cbn [bind parse_fragments String.eqb Ascii.eqb Bool.eqb].
  reflexivity.
Qed.

Lemma parse_scenario_witness :
  simai_parse_chart "(120)4,1,2,E"
  = Ok (mkChart [TapNote (10000 # 10000) 3 tap;
                 TapNote (12500 # 10000) 0 tap;
                 TapNote (15000 # 10000) 1 tap]
                [mkBPM (10000 # 10000) (PyInt 120)]).
Proof.
  apply (parse_scenario simai_parse_fragment); reflexivity.
Defined.

(** C6 fails as stated: the parsed chart has no note at measure 2.0 at
    all; the tap of lane 1 is at measure 1.25. *)
Lemma parse_scenario_no_tap_at_measure_2 :
  exists c,
    simai_parse_chart "(120)4,1,2,E" = Ok c /\
    Forall (fun n => ~ (measure n == 2)%Q) (notes c) /\
    In (TapNote (12500 # 10000) 0 tap) (notes c).
Proof.
  eexists. split; [reflexivity |]. split.
  - repeat constructor; cbn [measure]; intros H; discriminate H.
  - right. left. reflexivity.
Qed.

(* ================================================================= *)
(** ** The parser: where the notes of a fragment go *)

Lemma call_append_note (n : SimaiNote) (ps : ParserState) :
  call (append_note n) ps
  = Ok (mkParserState (mkChart (notes (simai_chart ps) ++ [n])
                               (bpms (simai_chart ps)))
                      (current_bpm ps) (current_divisor ps)
                      (current_measure ps)).
Proof. reflexivity. Qed.

Lemma bind_Ok {A B : Type} (r : result A) (k : A -> result B) (b : B) :
  bind r k = Ok b -> exists a, r = Ok a /\ k a = Ok b.
Proof.
  destruct r as [a | e]; cbn [bind]; intros H; [| discriminate H].
  exists a. split; [reflexivity | exact H].
Qed.

(** Every record of a fragment leaves the current measure alone and
    stores its notes at that measure, rounded. *)
Lemma parse_record_at (m : Q) (event : FragmentRecord)
    (ps ps' : ParserState) (sp sp' : list Z) :
  current_measure ps = m ->
  Forall (fun n => measure n = round4 m) (notes (simai_chart ps)) ->
  parse_record event (ps, sp) = Ok (ps', sp') ->
  current_measure ps' = m /\
  Forall (fun n => measure n = round4 m) (notes (simai_chart ps')).
Proof.
  intros Hm Hall H.
  assert (Happ : forall n ps1 ps2,
            current_measure ps1 = m ->
            Forall (fun n => measure n = round4 m) (notes (simai_chart ps1)) ->
            measure n = round4 m ->
            call (append_note n) ps1 = Ok ps2 ->
            current_measure ps2 = m /\
            Forall (fun n => measure n = round4 m) (notes (simai_chart ps2))).
  { intros n ps1 ps2 H1 H2 H3 H4. rewrite call_append_note in H4.
    injection H4 as <-. cbn. split; [exact H1 |].
    apply Forall_app. split; [exact H2 | constructor; [exact H3 | constructor]]. }
  destruct event; cbn [parse_record] in H.
  - (* tempo *)
    apply bind_Ok in H. destruct H as (ps1 & Hc & Hr). injection Hr as <- <-.
    unfold call, set_bpm in Hc. cbn [simai_chart] in Hc.
    destruct (SimaiBPM _ _); [| discriminate Hc].
    injection Hc as <-. cbn. split; assumption.
  - (* divisor *)
    injection H as <- <-. cbn. split; assumption.
  - (* tap *)
    destruct (match modifier with None => _ | Some _ => _ end)
      as [[is_break is_ex] is_star].
    apply bind_Ok in H. destruct H as (ps1 & Hc & Hr). injection Hr as <- <-.
    unfold add_tap in Hc. eapply Happ; [exact Hm | exact Hall | | exact Hc].
    unfold SimaiTapNote. rewrite Hm.
    repeat match goal with |- context [if ?b then _ else _] => destruct b end;
      reflexivity.
  - (* hold *)
    apply bind_Ok in H. destruct H as (ps1 & Hc & Hr). injection Hr as <- <-.
    unfold add_hold in Hc. eapply Happ; [exact Hm | exact Hall | | exact Hc].
    unfold SimaiHoldNote. rewrite Hm.
    destruct (match modifier with Some _ => _ | None => _ end); reflexivity.
  - (* slide *)
    apply bind_Ok in H. destruct H as ([[is_break is_ex] is_tapless] & _ & H).
    apply bind_Ok in H. destruct H as ([ps1 sp1] & Hstar & H).
    assert (H1 : current_measure ps1 = m /\
                 Forall (fun n => measure n = round4 m)
                        (notes (simai_chart ps1))).
    { destruct (negb _).
      - apply bind_Ok in Hstar. destruct Hstar as (ps0 & Hc & Hr).
        injection Hr as <- <-. unfold add_tap in Hc.
        eapply Happ; [exact Hm | exact Hall | | exact Hc].
        unfold SimaiTapNote. rewrite Hm.
        repeat match goal with |- context [if ?b then _ else _] => destruct b end;
          reflexivity.
      - injection Hstar as <- <-. split; assumption. }
    destruct H1 as [Hm1 Hall1].
    apply bind_Ok in H. destruct H as (timing & _ & H).
    apply bind_Ok in H. destruct H as (ps2 & Hc & Hr). injection Hr as <- <-.
    unfold call, add_slide in Hc.
    destruct (SimaiSlideNote _ _ _ _ _ _ _) as [note |] eqn:En;
      [| discriminate Hc].
    apply SimaiSlideNote_Ok in En.
    change (call (append_note note) ps1 = Ok ps2) in Hc.
    eapply Happ; [exact Hm1 | exact Hall1 | | exact Hc].
    rewrite En, Hm1. reflexivity.
  - (* touch tap *)
    apply bind_Ok in H. destruct H as (fw & _ & H).
    apply bind_Ok in H. destruct H as (zl & _ & H).
    apply bind_Ok in H. destruct H as (ps1 & Hc & Hr). injection Hr as <- <-.
    unfold add_touch_tap in Hc.
    eapply Happ; [exact Hm | exact Hall | | exact Hc].
    unfold SimaiTouchTapNote. rewrite Hm. reflexivity.
  - (* touch hold *)
    apply bind_Ok in H. destruct H as (fw & _ & H).
    apply bind_Ok in H. destruct H as (zl & _ & H).
    apply bind_Ok in H. destruct H as (ps1 & Hc & Hr). injection Hr as <- <-.
    unfold add_touch_hold in Hc.
    eapply Happ; [exact Hm | exact Hall | | exact Hc].
    unfold SimaiTouchHoldNote. rewrite Hm. reflexivity.
  - discriminate H.
Qed.

Lemma parse_records_at (m : Q) (events : list FragmentRecord) :
  forall (ps ps' : ParserState) (sp sp' : list Z),
  current_measure ps = m ->
  Forall (fun n => measure n = round4 m) (notes (simai_chart ps)) ->
  parse_records events (ps, sp) = Ok (ps', sp') ->
  current_measure ps' = m /\
  Forall (fun n => measure n = round4 m) (notes (simai_chart ps')).
Proof.
  induction events as [| event events IH]; intros ps ps' sp sp' Hm Hall H.
  - injection H as <- <-. split; assumption.
  - cbn [parse_records] in H. apply bind_Ok in H.
    destruct H as ([ps1 sp1] & H1 & H2).
    destruct (parse_record_at m event ps ps1 sp sp1 Hm Hall H1) as [Hm1 Hall1].
    exact (IH ps1 ps' sp1 sp' Hm1 Hall1 H2).
Qed.

(* ================================================================= *)
(** ** Export and parse: where the round trip fails *)

(** Two taps 0.0004 measures apart: the rest between them is below the
    resolution of 1/1000 and is written as no comma at all, so both
    tokens end up in one fragment.  Whatever the tokenizer makes of that
    fragment, every note it yields is stored at measure 1.0. *)
Lemma export_merges_close_measures
    (tokenizer : string -> result (list FragmentRecord)) (c' : SimaiChart) :
  export (mkChart [TapNote (10000 # 10000) 0 tap;
                   TapNote (10004 # 10000) 1 tap]
                  [mkBPM (10000 # 10000) (PyInt 120)])
  = Ok ("(120){1}12," ++ newline ++ "E")%string /\
  (simai_parse_chart_with tokenizer ("(120){1}12," ++ newline ++ "E") = Ok c' ->
   Forall (fun n => measure n = 10000 # 10000) (notes c')).
Proof.
  split; [vm_compute; reflexivity |].
  unfold simai_parse_chart_with.
  change (split_on "," (remove_whitespace ("(120){1}12," ++ newline ++ "E")))
    with ["(120){1}12"; "E"].
  cbn [parse_fragments String.eqb Ascii.eqb Bool.eqb].
  intros H. apply bind_Ok in H. destruct H as (ps & H & Hc).
  injection Hc as <-.
  apply bind_Ok in H. destruct H as (events & _ & H).
  apply bind_Ok in H. destruct H as ([ps1 sp1] & Hrec & H).
  apply bind_Ok in H. destruct H as (ps2 & Hadv & H).
  injection H as <-.
  destruct (parse_records_at 1 events
              (mkParserState SimaiChart_init (PyInt 120) 4 1) ps1 [] sp1
              eq_refl (Forall_nil _) Hrec) as [_ Hall].
  unfold advance in Hadv. apply bind_Ok in Hadv.
  destruct Hadv as (step & _ & Hadv). injection Hadv as <-.
  exact Hall.
Qed.


(* ================================================================= *)
(** ** Slide geometry: distances, directions and pattern codes *)

Lemma str_in_In (p : string) (l : list string) :
  str_in p l = true -> In p l.
Proof.
  unfold str_in. intros H. apply existsb_exists in H.
  destruct H as (x & Hin & Heq). apply String.eqb_eq in Heq.
  subst x. exact Hin.
Qed.

Ltac pattern_cases p H :=
  apply str_in_In in H; simpl in H;
  repeat (destruct H as [H | H]; [subst p |]); try contradiction.

(** X1.  Between lanes 0..7 a slide travels 1 to 8 steps, 8 exactly from a
    lane to itself; the same arc walked backwards in the other direction
    has the same length, and between two distinct lanes the two
    directions add up to the full circle. *)
Theorem slide_distance_range (s e : Z) (is_cw : bool) :
  0 <= s <= 7 -> 0 <= e <= 7 ->
  1 <= slide_distance s e is_cw <= 8 /\
  (slide_distance s e is_cw = 8 <-> s = e) /\
  slide_distance e s (negb is_cw) = slide_distance s e is_cw /\
  (s <> e ->
   slide_distance s e is_cw + slide_distance s e (negb is_cw) = 8).
Proof.
  intros Hs He. unfold slide_distance.
  destruct is_cw; cbn [negb];
    destruct (Z.geb_spec s e), (Z.leb_spec s e);
    destruct (Z.geb_spec e s), (Z.leb_spec e s); lia.
Qed.

Lemma slide_distance_range_witness :
  1 <= slide_distance 6 1 true <= 8 /\
  (slide_distance 6 1 true = 8 <-> 6 = 1) /\
  slide_distance 1 6 (negb true) = slide_distance 6 1 true /\
  (6 <> 1 -> slide_distance 6 1 true + slide_distance 6 1 (negb true) = 8).
Proof. apply (slide_distance_range 6 1 true); lia. Defined.

(** X2.  Swapping the two lanes of a slide reverses the direction
    [slide_is_cw] chooses: between two distinct lanes 0..7 that are not
    opposite, it is clockwise one way exactly when it is counter-clockwise
    the other way. *)
Theorem slide_is_cw_reverse (s e : Z) (b : bool) :
  0 <= s <= 7 -> 0 <= e <= 7 -> s <> e ->
  slide_is_cw s e = Ok b -> slide_is_cw e s = Ok (negb b).
Proof.
  intros Hs He Hne H.
  lane_cases s; lane_cases e; try (exfalso; apply Hne; reflexivity);
    vm_compute in H; try discriminate H;
    injection H as <-; reflexivity.
Qed.

Lemma slide_is_cw_reverse_witness :
  slide_is_cw 0 2 = Ok true /\ slide_is_cw 2 0 = Ok (negb true).
Proof.
  split; [reflexivity |].
  apply (slide_is_cw_reverse 0 2 true); [lia | lia | lia | reflexivity].
Defined.

Lemma decode_known_code (c s e : Z) :
  1 <= c <= 13 -> exists p r, simai_pattern_from_int c s e = Ok (p, r).
Proof.
  intros Hc.
  assert (H : c = 1 \/ c = 2 \/ c = 3 \/ c = 4 \/ c = 5 \/ c = 6 \/ c = 7
              \/ c = 8 \/ c = 9 \/ c = 10 \/ c = 11 \/ c = 12 \/ c = 13)
    by lia.
  repeat (destruct H as [H | H]); subst c;
    try (eexists; eexists; reflexivity);
    unfold simai_pattern_from_int; cbn -[slide_distance Z.leb];
    repeat match goal with
           | |- context [if ?b then _ else _] => destruct b
           end; eexists; eexists; reflexivity.
Qed.

(** X3.  [simai_pattern_from_int] accepts exactly the codes 1 to 13,
    whatever the lanes; every other code raises the unknown pattern
    error. *)
Theorem simai_pattern_from_int_accepts (c s e : Z) :
  (1 <= c <= 13 -> exists p r, simai_pattern_from_int c s e = Ok (p, r)) /\
  (~ 1 <= c <= 13 ->
   simai_pattern_from_int c s e = Raise (ValueError "Unknown pattern")).
Proof.
  split.
  - apply decode_known_code.
  - intros Hc. unfold simai_pattern_from_int, z_in. cbn -[Z.eqb].
    repeat match goal with
           | |- context [ (?a =? c) ] =>
               destruct (Z.eqb_spec a c); [lia |]
           | |- context [ (c =? ?a) ] =>
               destruct (Z.eqb_spec c a); [lia |]
           end.
    reflexivity.
Qed.

(** X4.  The codes 11 and 12 decode to the pattern [V] with a reflect lane
    in 0..7 that lies two lanes before (11) or after (12) the start lane
    around the circle; the end lane plays no part. *)
Theorem simai_pattern_from_int_reflect (c s e : Z) :
  0 <= s <= 7 -> c = 11 \/ c = 12 ->
  exists r,
    simai_pattern_from_int c s e = Ok ("V", Some r) /\
    0 <= r <= 7 /\
    r = (if c =? 11 then s - 2 else s + 2) mod 8.
Proof.
  intros Hs [-> | ->]; lane_cases s; eexists;
    (split; [vm_compute; reflexivity | split; [lia | reflexivity]]).
Qed.

Lemma simai_pattern_from_int_reflect_witness :
  exists r,
    simai_pattern_from_int 11 1 5 = Ok ("V", Some r) /\
    0 <= r <= 7 /\
    r = (if 11 =? 11 then 1 - 2 else 1 + 2) mod 8.
Proof. apply (simai_pattern_from_int_reflect 11 1 5); [lia | left; reflexivity]. Defined.

(* ================================================================= *)
(** ** Encoding a slide's pattern and decoding it again *)

(** X5.  Whatever [simai_pattern_to_int] returns as a code is a code from
    1 to 13, so [simai_pattern_from_int] decodes it without raising, on
    any lanes. *)
Theorem simai_pattern_to_int_decodable (note : SimaiNote) (c s e : Z) :
  simai_pattern_to_int note = Ok (Some c) ->
  1 <= c <= 13 /\ exists p r, simai_pattern_from_int c s e = Ok (p, r).
Proof.
  intros H.
  assert (Hc : 1 <= c <= 13).
  { destruct note as [| | m ps t d ep p dl r | |]; try discriminate H.
    cbn [simai_pattern_to_int] in H.
    destruct (str_in p simai_slide_patterns) eqn:Hp; cbn [negb] in H;
      [| discriminate H].
    pattern_cases p Hp; cbn -[slide_is_cw z_in] in H;
      try (injection H as <-; lia);
      try (destruct (slide_is_cw ps ep); cbn [bind] in H;
           [injection H as <-;
            match goal with |- context [if ?b then _ else _] => destruct b end;
            lia
           | discriminate H]);
      try (destruct (z_in ps top_list); injection H as <-; lia).
    destruct r as [r |]; [| discriminate H].
    destruct (slide_is_cw ps r) as [b |]; cbn [bind] in H;
      [injection H as <-; destruct b; lia | discriminate H]. }
  split; [exact Hc |].
  destruct (decode_known_code c s e Hc) as (p & r & E).
  exists p, r. exact E.
Qed.

Lemma simai_pattern_to_int_decodable_witness :
  1 <= 3 <= 13 /\ exists p r, simai_pattern_from_int 3 0 2 = Ok (p, r).
Proof.
  apply (simai_pattern_to_int_decodable
           (SlideNote 1 0 complete_slide 1 2 "^" (1 # 4) None) 3 0 2).
  reflexivity.
Defined.

(** X6.  Encoding a slide and decoding the code on the slide's own lanes
    gives the pattern and the reflect lane back, for lanes 0..7, when the
    slide is written the way the decoder writes it: no reflect lane
    unless the pattern is [V]; for [^] two distinct lanes; for [>] and
    [<] more than 3 steps in the direction of the code; for [V] a reflect
    lane two lanes before or after the start lane. *)
Theorem pattern_survives_encoding (m : Q) (s : Z) (t : NoteType) (d : Q)
    (e : Z) (p : string) (dl : Q) (r : option Z) (c : Z) :
  0 <= s <= 7 -> 0 <= e <= 7 ->
  simai_pattern_to_int (SlideNote m s t d e p dl r) = Ok (Some c) ->
  (p <> "V" -> r = None) ->
  (p = "^" -> s <> e) ->
  (p = ">" \/ p = "<" -> 3 < slide_distance s e (c =? 3)) ->
  (p = "V" -> r = Some ((s - 2) mod 8) \/ r = Some ((s + 2) mod 8)) ->
  simai_pattern_from_int c s e = Ok (p, r).
Proof.
  intros Hs He H Hr Hhat Hgt HV.
  cbn [simai_pattern_to_int] in H.
  destruct (str_in p simai_slide_patterns) eqn:Hp; cbn [negb] in H;
    [| discriminate H].
  pattern_cases p Hp;
    try (rewrite (Hr ltac:(discriminate)) in *; clear Hr);
    try (cbn in H; injection H as <-; reflexivity).
  - (* ^ *)
    specialize (Hhat eq_refl).
    lane_cases s; lane_cases e; try (exfalso; apply Hhat; reflexivity);
      vm_compute in H; try discriminate H; injection H as <-; reflexivity.
  - (* > *)
    specialize (Hgt (or_introl eq_refl)).
    lane_cases s; lane_cases e; vm_compute in H; injection H as <-;
      vm_compute in Hgt; try discriminate Hgt; reflexivity.
  - (* < *)
    specialize (Hgt (or_intror eq_refl)).
    lane_cases s; lane_cases e; vm_compute in H; injection H as <-;
      vm_compute in Hgt; try discriminate Hgt; reflexivity.
  - (* V *)
    destruct (HV eq_refl) as [-> | ->];
      lane_cases s; vm_compute in H; injection H as <-; reflexivity.
Qed.

Lemma pattern_survives_encoding_witness :
  simai_pattern_from_int 3 0 5 = Ok (">", None).
Proof.
  apply (pattern_survives_encoding 1 0 complete_slide 1 5 ">" (1 # 4) None 3);
    try lia; try reflexivity; try discriminate.
Defined.

(** X7.  A slide that passed the constructor's checks can be written out:
    [simai_slide_to_pattern_str] returns its pattern, with the reflect
    lane counted from 1 appended for [V], and [simai_pattern_to_int]
    returns a code from 1 to 13 or raises the error of the 180 degree
    case; it never answers [None] and raises nothing else. *)
Theorem constructed_slide_has_pattern (m : Q) (s e : Z) (d : Q)
    (p : string) (dl : Q) (r : option Z) (note : SimaiNote) :
  SimaiSlideNote m s e d p dl r = Ok note ->
  (exists text, simai_slide_to_pattern_str note = Ok text /\
     (p <> "V" -> text = p) /\
     (p = "V" ->
      exists lane, r = Some lane /\ text = ("V" ++ str_int (lane + 1))%string)) /\
  ((exists c, simai_pattern_to_int note = Ok (Some c) /\ 1 <= c <= 13) \/
   simai_pattern_to_int note
   = Raise (ValueError "Can't choose direction for a 180 degree angle.")).
Proof.
  intros H. pose proof (SimaiSlideNote_Ok _ _ _ _ _ _ _ _ H) as ->.
  unfold SimaiSlideNote in H.
  destruct (Qle_bool (round4 d) 0); [discriminate |].
  destruct (Qlt_bool (round4 dl) 0); [discriminate |].
  destruct (str_in p simai_slide_patterns) eqn:Hp; cbn [negb] in H;
    [| discriminate H].
  destruct (String.eqb p "V" && _) eqn:HV; [discriminate H |]. clear H.
  assert (Hcw : forall a b (k : bool -> Z),
            (forall x, 1 <= k x <= 13) ->
            (exists c, (is_cw <- slide_is_cw a b ;; Ok (Some (k is_cw)))%py
                       = Ok (Some c) /\ 1 <= c <= 13) \/
            (is_cw <- slide_is_cw a b ;; Ok (Some (k is_cw)))%py
            = Raise (ValueError "Can't choose direction for a 180 degree angle.")).
  { intros a b k Hk. unfold slide_is_cw.
    destruct (Z.abs (b - a) =? 4); [right; reflexivity |].
    left.
    match goal with
    | |- context [if ?c then Ok false else Ok true] => destruct c
    end; cbn [bind]; eexists; (split; [reflexivity | apply Hk]). }
  cbn [simai_pattern_to_int simai_slide_to_pattern_str]. rewrite Hp.
  cbn [negb].
  pattern_cases p Hp;
    try (split;
         [eexists; split; [reflexivity |];
          split; [reflexivity | intros X; discriminate X]
         | cbn -[slide_is_cw z_in];
           first [ left; eexists; split; [reflexivity | lia]
                 | apply (Hcw s e (fun b => if b then 3 else 2));
                   intros []; lia
                 | left; destruct (z_in s top_list); eexists;
                   (split; [reflexivity | lia]) ]]).
  destruct r as [lane |]; [| discriminate HV].
  split.
  - eexists. split; [reflexivity |].
    split; [intros X; contradiction X; reflexivity |].
    intros _. exists lane. split; reflexivity.
  - cbn -[slide_is_cw].
    apply (Hcw s lane (fun b => if b then 12 else 11)). intros []; lia.
Qed.

Lemma constructed_slide_has_pattern_witness :
  (exists text,
     simai_slide_to_pattern_str
       (SlideNote (round4 1) 0 complete_slide (round4 1) 4 "V"
                  (round4 (1 # 4)) (Some 2)) = Ok text /\
     ("V" <> "V" -> text = "V") /\
     ("V" = "V" ->
      exists lane, Some 2 = Some lane /\
                   text = ("V" ++ str_int (lane + 1))%string)) /\
  ((exists c,
      simai_pattern_to_int
        (SlideNote (round4 1) 0 complete_slide (round4 1) 4 "V"
                   (round4 (1 # 4)) (Some 2)) = Ok (Some c) /\
      1 <= c <= 13) \/
   simai_pattern_to_int
     (SlideNote (round4 1) 0 complete_slide (round4 1) 4 "V"
                (round4 (1 # 4)) (Some 2))
   = Raise (ValueError "Can't choose direction for a 180 degree angle.")).
Proof.
  apply (constructed_slide_has_pattern 1 0 4 1 "V" (1 # 4) (Some 2)).
  reflexivity.
Defined.

(* ================================================================= *)
(** ** Rounding: the grid of 1e-4 and [quantise] *)

(** X8.  For a positive grid, [quantise] returns a whole number of grid
    steps [k / grid], at most half a step away from the measure; a grid
    that is not positive raises. *)
Theorem quantise_nearest_step (measure : Q) (grid : Z) :
  (grid <= 0 -> raises (quantise measure grid)) /\
  (0 < grid ->
   exists k : Z,
     quantise measure grid = Ok (inject_Z k / inject_Z grid)%Q /\
     (Qabs (inject_Z k / inject_Z grid - measure)
      <= (1 # 2) / inject_Z grid)%Q).
Proof.
  unfold quantise. split; intros Hg.
  - replace (grid <=? 0) with true by (symmetry; apply Z.leb_le; exact Hg).
    apply raises_Raise.
  - replace (grid <=? 0) with false by (symmetry; apply Z.leb_gt; exact Hg).
    exists (py_round (inject_Z grid * measure)). split; [reflexivity |].
    pose proof (py_round_close (inject_Z grid * measure)) as H.
    apply Qabs_Qle_condition in H. apply Qabs_Qle_condition.
    set (k := inject_Z (py_round (inject_Z grid * measure))) in *.
    assert (HG : (0 < inject_Z grid)%Q)
      by (unfold Qlt, inject_Z; cbn [Qnum Qden]; lia).
    set (G := inject_Z grid) in *.
    assert (HI : (0 < / G)%Q) by (apply Qinv_lt_0_compat; exact HG).
    assert (HGI : (G * / G == 1)%Q) by (apply Qmult_inv_r; lra).
    unfold Qdiv. set (I := (/ G)%Q) in *. destruct H as [H1 H2].
    assert (Em : (measure == (G * measure) * I)%Q).
    { rewrite (Qmult_comm G measure), <- Qmult_assoc, HGI. ring. }
    split.
    + assert (((- (1 # 2)) * I <= (k - G * measure) * I)%Q)
        by (apply Qmult_le_compat_r; lra).
      rewrite Em at 1. lra.
    + assert (((k - G * measure) * I <= (1 # 2) * I)%Q)
        by (apply Qmult_le_compat_r; lra).
      rewrite Em at 1. lra.
Qed.

Lemma quantise_nearest_step_witness :
  exists k : Z,
    quantise (13 # 10) 4 = Ok (inject_Z k / inject_Z 4)%Q /\
    (Qabs (inject_Z k / inject_Z 4 - (13 # 10)) <= (1 # 2) / inject_Z 4)%Q.
Proof. apply (proj2 (quantise_nearest_step (13 # 10) 4)). lia. Defined.

(** X9.  [quantise] is idempotent: a measure it returned is returned
    unchanged when it is quantised again on the same grid. *)
Theorem quantise_idempotent (measure q : Q) (grid : Z) :
  quantise measure grid = Ok q -> quantise q grid = Ok q.
Proof.
  unfold quantise. destruct (Z.leb_spec grid 0) as [Hg | Hg];
    [discriminate |].
  intros H. injection H as <-. f_equal. f_equal. f_equal.
  apply py_round_whole.
  assert (HG : ~ (inject_Z grid == 0)%Q)
    by (unfold Qeq, inject_Z; cbn [Qnum Qden]; lia).
  field. exact HG.
Qed.

Lemma quantise_idempotent_witness :
  quantise (13 # 10) 4 = Ok (inject_Z 5 / inject_Z 4)%Q /\
  quantise (inject_Z 5 / inject_Z 4)%Q 4 = Ok (inject_Z 5 / inject_Z 4)%Q.
Proof.
  split; [reflexivity |].
  apply (quantise_idempotent (13 # 10) (inject_Z 5 / inject_Z 4)%Q 4).
  reflexivity.
Defined.

(* ================================================================= *)
(** ** The chart: notes, tempo markers and the tempo in effect *)


(** *** [sorted(set(...))] *)

Lemma set_insert_In (x z : Q) (l : list Q) :
  In z (set_insert x l) -> z = x \/ In z l.
Proof.
  induction l as [| y l IH]; cbn [set_insert].
  - intros [H | []]. left. symmetry. exact H.
  - destruct (Qeq_bool x y); [intros H; right; exact H |].
    destruct (Qle_bool x y).
    + intros [H | H]; [left; symmetry; exact H | right; exact H].
    + intros [H | H]; [right; left; exact H |].
      destruct (IH H) as [H' | H']; [left; exact H' | right; right; exact H'].
Qed.

Lemma set_insert_keeps (x z : Q) (l : list Q) :
  In z l -> In z (set_insert x l).
Proof.
  induction l as [| y l IH]; cbn [set_insert]; [intros [] |].
  destruct (Qeq_bool x y); [trivial |].
  destruct (Qle_bool x y); [intros H; right; exact H |].
  intros [H | H]; [left; exact H | right; exact (IH H)].
Qed.

Lemma set_insert_has (x : Q) (l : list Q) :
  exists y, In y (set_insert x l) /\ (y == x)%Q.
Proof.
  induction l as [| y l IH]; cbn [set_insert].
  - exists x. split; [left; reflexivity | reflexivity].
  - destruct (Qeq_bool x y) eqn:E.
    + apply Qeq_bool_iff in E. exists y.
      split; [left; reflexivity | symmetry; exact E].
    + destruct (Qle_bool x y).
      * exists x. split; [left; reflexivity | reflexivity].
      * destruct IH as (z & Hz & Ez). exists z.
        split; [right; exact Hz | exact Ez].
Qed.

Lemma set_insert_sorted (x : Q) (l : list Q) :
  StronglySorted Qlt l -> StronglySorted Qlt (set_insert x l).
Proof.
  induction l as [| y l IH]; intros Hs; cbn [set_insert].
  - constructor; constructor.
  - inversion Hs as [| ? ? Hl Hy]; subst.
    destruct (Qeq_bool x y) eqn:E; [exact Hs |].
    assert (Hne : ~ (x == y)%Q)
      by (intros H; apply Qeq_bool_iff in H; congruence).
    destruct (Qle_bool x y) eqn:L.
    + apply Qle_bool_iff in L.
      assert (Hlt : (x < y)%Q)
        by (destruct (Qlt_le_dec x y) as [H | H];
            [exact H | exfalso; apply Hne; apply Qle_antisym; assumption]).
      constructor; [exact Hs |].
      constructor; [exact Hlt |].
      eapply Forall_impl; [| exact Hy].
      intros a Ha. cbn in Ha. eapply Qlt_trans; eassumption.
    + assert (Hlt : (y < x)%Q).
      { destruct (Qlt_le_dec y x) as [H | H]; [exact H |].
        apply Qle_bool_iff in H. congruence. }
      constructor; [exact (IH Hl) |].
      apply Forall_forall. intros z Hz.
      destruct (set_insert_In _ _ _ Hz) as [-> | Hz'];
        [exact Hlt | exact (proj1 (Forall_forall _ _) Hy z Hz')].
Qed.

Lemma sorted_set_sorted (l : list Q) : StronglySorted Qlt (sorted_set l).
Proof.
  induction l as [| x l IH]; cbn [sorted_set];
    [constructor | apply set_insert_sorted; exact IH].
Qed.

Lemma sorted_set_In (z : Q) (l : list Q) : In z (sorted_set l) -> In z l.
Proof.
  induction l as [| x l IH]; cbn [sorted_set]; [trivial |].
  intros H. destruct (set_insert_In _ _ _ H) as [-> | H'];
    [left; reflexivity | right; exact (IH H')].
Qed.

Lemma sorted_set_has (x : Q) (l : list Q) :
  In x l -> exists y, In y (sorted_set l) /\ (y == x)%Q.
Proof.
  induction l as [| a l IH]; [intros [] |].
  cbn [sorted_set]. intros [-> | H].
  - apply set_insert_has.
  - destruct (IH H) as (y & Hy & Ey). exists y.
    split; [apply set_insert_keeps; exact Hy | exact Ey].
Qed.

(** *** The scan of [get_bpm] *)

(** Nothing at or before the measure: the scan keeps the value it
    started from. *)
Lemma get_bpm_scan_none (q p : Q) (l : list Q) :
  StronglySorted Qlt l -> Forall (fun y => q < y)%Q l ->
  get_bpm_scan q p l = p.
Proof.
  intros _ Hall. destruct l as [| y l]; [reflexivity |].
  cbn [get_bpm_scan]. inversion Hall as [| ? ? Hy _]; subst.
  rewrite (not_Qle_bool_Qlt _ _ Hy). reflexivity.
Qed.

(** The scan stops at the last measure at or before the one asked for. *)
Lemma get_bpm_scan_last (q x : Q) (l : list Q) :
  forall p : Q,
  StronglySorted Qlt l -> In x l -> (x <= q)%Q ->
  (forall y, In y l -> (y <= q)%Q -> (y <= x)%Q) ->
  (get_bpm_scan q p l == x)%Q.
Proof.
  induction l as [| y l IH]; intros p Hs Hin Hx Hmax; [destruct Hin |].
  inversion Hs as [| ? ? Hl Hy]; subst. cbn [get_bpm_scan].
  destruct (Qle_bool y q) eqn:L.
  - apply Qle_bool_iff in L. destruct Hin as [-> | Hin].
    + rewrite get_bpm_scan_none; [reflexivity | exact Hl |].
      apply Forall_forall. intros z Hz.
      pose proof (proj1 (Forall_forall _ _) Hy z Hz) as Hxz. cbn in Hxz.
      destruct (Qlt_le_dec q z) as [H | H]; [exact H |].
      pose proof (Hmax z (or_intror Hz) H). exfalso.
      apply (Qlt_irrefl x). eapply Qlt_le_trans; eassumption.
    + apply IH; [exact Hl | exact Hin | exact Hx |].
      intros z Hz. apply Hmax. right. exact Hz.
  - exfalso. destruct Hin as [-> | Hin].
    + apply Qle_bool_iff in Hx. congruence.
    + pose proof (proj1 (Forall_forall _ _) Hy x Hin) as Hyx. cbn in Hyx.
      assert (H : (y <= q)%Q)
        by (apply Qlt_le_weak; eapply Qlt_le_trans; eassumption).
      apply Qle_bool_iff in H. congruence.
Qed.

Lemma filter_none {A : Type} (f : A -> bool) (l : list A) :
  (forall a, In a l -> f a = false) -> filter f l = [].
Proof.
  induction l as [| a l IH]; intros H; [reflexivity |].
  cbn [filter]. rewrite (H a (or_introl eq_refl)).
  apply IH. intros b Hb. apply H. right. exact Hb.
Qed.

Lemma Qeq_bool_false (a b : Q) : ~ (a == b)%Q -> Qeq_bool a b = false.
Proof.
  intros H. destruct (Qeq_bool a b) eqn:E; [| reflexivity].
  apply Qeq_bool_iff in E. contradiction.
Qed.

(** X11.  A tempo set with [set_bpm] is the tempo in effect from its
    (rounded) measure on, up to the next marker: [get_bpm] returns it for
    every measure at or after it, when the chart had no marker between
    the two. *)
Theorem set_bpm_in_effect (self : SimaiChart) (m q : Q) (b : PyNum) :
  (0 < num_val b)%Q -> (round4 m <= q)%Q ->
  (forall e, In e (bpms self) ->
     (bpm_measure e < round4 m)%Q \/ (q < bpm_measure e)%Q) ->
  get_bpm (fst (set_bpm m b self)) q = Some b.
Proof.
  intros Hb Hq Hfree. unfold set_bpm, SimaiBPM.
  rewrite (not_Qle_bool_Qlt _ _ Hb). cbn [fst]. unfold get_bpm.
  cbn [bpms].
  set (l := map bpm_measure (bpms self ++ [mkBPM (round4 m) b])).
  assert (Hin : In (round4 m) l).
  { unfold l. rewrite map_app. apply in_or_app. right. left. reflexivity. }
  destruct (sorted_set_has _ _ Hin) as (x & Hx & Ex).
  assert (Hscan : (get_bpm_scan q 0 (sorted_set l) == round4 m)%Q).
  { rewrite <- Ex. apply get_bpm_scan_last.
    - apply sorted_set_sorted.
    - exact Hx.
    - rewrite Ex. exact Hq.
    - intros y Hy Hyq. rewrite Ex. apply sorted_set_In in Hy.
      unfold l in Hy. rewrite map_app in Hy. apply in_app_or in Hy.
      destruct Hy as [Hy | [<- | []]]; [| apply Qle_refl].
      apply in_map_iff in Hy. destruct Hy as (e & <- & He).
      destruct (Hfree e He) as [H | H]; [apply Qlt_le_weak; exact H |].
      exfalso. apply (Qlt_irrefl q). eapply Qlt_le_trans; eassumption. }
  rewrite filter_app. rewrite filter_none.
  - cbn [filter bpm_measure app].
    replace (Qeq_bool (round4 m) (get_bpm_scan q 0 (sorted_set l)))
      with true
      by (symmetry; apply Qeq_bool_iff; symmetry; exact Hscan).
    reflexivity.
  - intros e He. apply Qeq_bool_false. rewrite Hscan.
    destruct (Hfree e He) as [H | H]; intros E; rewrite E in H.
    + exact (Qlt_irrefl _ H).
    + apply (Qlt_irrefl q). eapply Qlt_le_trans; eassumption.
Qed.

Lemma set_bpm_in_effect_witness :
  get_bpm (fst (set_bpm 3 (PyInt 150)
                  (mkChart [] [mkBPM (round4 1) (PyInt 120);
                               mkBPM (round4 5) (PyInt 90)])))
          (9 # 2)
  = Some (PyInt 150).
Proof.
  apply (set_bpm_in_effect _ 3 (9 # 2) (PyInt 150)).
  - reflexivity.
  - vm_compute. discriminate.
  - intros e [<- | [<- | []]]; [left | right]; reflexivity.
Defined.

(** X12.  [get_bpm] answers [None] for a measure from 0 on that lies
    before every tempo marker of the chart, and always for a chart
    without markers. *)
Theorem get_bpm_before_first_marker (self : SimaiChart) (q : Q) :
  (0 <= q)%Q ->
  (forall e, In e (bpms self) -> (q < bpm_measure e)%Q) ->
  get_bpm self q = None.
Proof.
  intros Hq Hall. unfold get_bpm.
  rewrite get_bpm_scan_none.
  - rewrite filter_none; [reflexivity |].
    intros e He. apply Qeq_bool_false. intros E.
    pose proof (Hall e He) as H. rewrite E in H.
    apply (Qlt_irrefl q). eapply Qlt_le_trans; [exact H | exact Hq].
  - apply sorted_set_sorted.
  - apply Forall_forall. intros y Hy. apply sorted_set_In in Hy.
    apply in_map_iff in Hy. destruct Hy as (e & <- & He).
    exact (Hall e He).
Qed.

Lemma get_bpm_before_first_marker_witness :
  get_bpm (mkChart [] [mkBPM 2 (PyInt 120)]) 1 = None.
Proof.
  apply get_bpm_before_first_marker.
  - vm_compute. discriminate.
  - intros e [<- | []]. reflexivity.
Defined.

(** X13.  [export] refuses a chart without a tempo at its start: it
    raises "No BPMs defined" when the chart has no tempo marker, and "No
    starting BPM defined" when every marker lies after measure 1,
    whatever the notes. *)
Theorem export_needs_starting_bpm (self : SimaiChart) :
  (bpms self = [] -> export self = Raise (Exception "No BPMs defined")) /\
  (bpms self <> [] ->
   (forall e, In e (bpms self) -> (1 < bpm_measure e)%Q) ->
   export self = Raise (Exception "No starting BPM defined")).
Proof.
  unfold export. split.
  - intros ->. reflexivity.
  - intros Hne Hall. destruct (bpms self) as [| e l] eqn:E;
      [contradiction Hne; reflexivity |].
    cbn [List.length Nat.eqb]. rewrite <- E in Hall.
    rewrite (get_bpm_before_first_marker self 1);
      [reflexivity | discriminate | exact Hall].
Qed.

Lemma export_needs_starting_bpm_witness :
  export (mkChart [TapNote 1 0 tap] [mkBPM 2 (PyInt 120)])
  = Raise (Exception "No starting BPM defined").
Proof.
  apply (proj2 (export_needs_starting_bpm
                  (mkChart [TapNote 1 0 tap] [mkBPM 2 (PyInt 120)]))).
  - discriminate.
  - intros e [<- | []]. reflexivity.
Defined.

(* ================================================================= *)
(** ** The time converter at a constant tempo *)

(** X14.  With a single breakpoint at measure 1, [measure_to_second] is
    the plain formula: a measure more than the tolerance after the start
    lies [240 * (measure - 1) / bpm] seconds in, and a measure within the
    tolerance of the start is snapped to the start, 0 seconds. *)
Theorem measure_to_second_constant_tempo (m b : Q) :
  ~ (b == 0)%Q -> (1 < m)%Q -> (m <= 500000)%Q ->
  exists t : Q,
    measure_to_second m [(1%Q, b)] = ([(1%Q, b)], Ok t) /\
    (t == if Qle_bool m (1 + tol) then 0 else 240 * (m - 1) / b)%Q.
Proof.
  intros Hb Hm Hbig. unfold measure_to_second.
  rewrite (not_Qle_bool_Qlt _ _ Hm).
  change (_check_bpms [(1%Q, b)]) with (@Ok unit tt).
  change (sort_bpms [(1%Q, b)]) with [(1%Q, b)].
  cbn [measure_to_second_loop]. rewrite py_div_ok by exact Hb.
  cbn [bind]. destruct (Qle_bool m (1 + tol)) eqn:L.
  - apply Qle_bool_iff in L.
    rewrite isclose_near by (unfold tol in *; lra).
    eexists. split; [reflexivity |]. field. exact Hb.
  - assert (Hfar : (1 + tol < m)%Q).
    { destruct (Qlt_le_dec (1 + tol) m) as [H | H]; [exact H |].
      apply Qle_bool_iff in H. congruence. }
    rewrite isclose_far;
      [| apply Qabs_Qle_condition; lra
       | apply Qabs_Qle_condition; lra
       | left; exact Hfar].
    replace (Qlt_bool m 1) with false
      by (symmetry; apply Qlt_bool_false; lra).
    unfold measure_to_second_end. rewrite py_div_ok by exact Hb.
    cbn [bind]. eexists. split; [reflexivity |]. field. exact Hb.
Qed.

Lemma measure_to_second_constant_tempo_witness :
  exists t : Q,
    measure_to_second 3 [(1%Q, 120%Q)] = ([(1%Q, 120%Q)], Ok t) /\
    (t == if Qle_bool 3 (1 + tol) then 0 else 240 * (3 - 1) / 120)%Q.
Proof.
  apply (measure_to_second_constant_tempo 3 120).
  - intros H. vm_compute in H. discriminate H.
  - reflexivity.
  - vm_compute. discriminate.
Defined.

(** X15.  With a single breakpoint at measure 1, [second_to_measure] is
    the inverse formula: a time more than the tolerance after 0 lies at
    measure [1 + seconds * bpm / 240], and a positive time within the
    tolerance of 0 is snapped to measure 1. *)
Theorem second_to_measure_constant_tempo (s b : Q) :
  ~ (b == 0)%Q -> (0 < s)%Q -> (s <= 500000)%Q ->
  exists x : Q,
    second_to_measure s [(1%Q, b)] = ([(1%Q, b)], Ok x) /\
    (x == if Qle_bool s tol then 1 else 1 + s * b / 240)%Q.
Proof.
  intros Hb Hs Hbig. unfold second_to_measure.
  rewrite (not_Qle_bool_Qlt _ _ Hs).
  change (_check_bpms [(1%Q, b)]) with (@Ok unit tt).
  change (sort_bpms [(1%Q, b)]) with [(1%Q, b)].
  cbn [second_to_measure_loop]. rewrite py_div_ok by exact Hb.
  cbn [bind].
  assert (E0 : (0 + 60 * (1 - 1) * 4 / b == 0)%Q) by (field; exact Hb).
  destruct (Qle_bool s tol) eqn:L.
  - apply Qle_bool_iff in L.
    rewrite isclose_near by (rewrite E0; unfold tol in *; lra).
    eexists. split; reflexivity.
  - assert (Hfar : (tol < s)%Q).
    { destruct (Qlt_le_dec tol s) as [H | H]; [exact H |].
      apply Qle_bool_iff in H. congruence. }
    rewrite isclose_far;
      [| rewrite E0; apply Qabs_Qle_condition; lra
       | apply Qabs_Qle_condition; lra
       | left; rewrite E0; lra].
    replace (Qlt_bool s (0 + 60 * (1 - 1) * 4 / b)) with false
      by (symmetry; apply Qlt_bool_false; rewrite E0; lra).
    unfold second_to_measure_end.
    eexists. split; [reflexivity |]. rewrite E0. field.
Qed.

Lemma second_to_measure_constant_tempo_witness :
  exists x : Q,
    second_to_measure 4 [(1%Q, 120%Q)] = ([(1%Q, 120%Q)], Ok x) /\
    (x == if Qle_bool 4 tol then 1 else 1 + 4 * 120 / 240)%Q.
Proof.
  apply (second_to_measure_constant_tempo 4 120).
  - intros H. vm_compute in H. discriminate H.
  - reflexivity.
  - vm_compute. discriminate.
Defined.

(* ================================================================= *)
(** ** The parser: white space and the end mark *)

Lemma append_assoc (a b c : string) :
  ((a ++ b) ++ c = a ++ (b ++ c))%string.
Proof. induction a as [| x a IH]; cbn; [reflexivity | rewrite IH; reflexivity]. Qed.

Lemma append_nil_r (a : string) : (a ++ "" = a)%string.
Proof. induction a as [| x a IH]; cbn; [reflexivity | rewrite IH; reflexivity]. Qed.

Lemma remove_whitespace_app (a b : string) :
  remove_whitespace (a ++ b)
  = (remove_whitespace a ++ remove_whitespace b)%string.
Proof.
  induction a as [| c a IH]; [reflexivity |].
  cbn [append remove_whitespace]. destruct (is_space c);
    [exact IH | cbn [append]; rewrite IH; reflexivity].
Qed.

Lemma split_on_cons (sep : ascii) (s : string) :
  exists piece pieces, split_on sep s = piece :: pieces.
Proof.
  destruct s as [| c s]; cbn [split_on]; [eexists; eexists; reflexivity |].
  destruct (Ascii.eqb c sep); [eexists; eexists; reflexivity |].
  destruct (split_on sep s); eexists; eexists; reflexivity.
Qed.

(** Splitting at a separator splits the two sides on their own. *)
Lemma split_on_sep (sep : ascii) (a b : string) :
  split_on sep (a ++ String sep b)
  = (split_on sep a ++ split_on sep b)%list.
Proof.
  induction a as [| c a IH]; cbn [append split_on].
  - rewrite Ascii.eqb_refl. reflexivity.
  - destruct (Ascii.eqb c sep); [rewrite IH; reflexivity |].
    rewrite IH. destruct (split_on_cons sep a) as (p & ps & ->).
    reflexivity.
Qed.

(** What follows the fragment [E] is never looked at. *)
Lemma parse_fragments_stop
    (tokenizer : string -> result (list FragmentRecord))
    (before after : list string) :
  forall ps : ParserState,
  parse_fragments tokenizer (before ++ "E" :: after) ps
  = parse_fragments tokenizer (before ++ ["E"]) ps.
Proof.
  induction before as [| f before IH]; intros ps; [reflexivity |].
  cbn [app parse_fragments].
  destruct (String.eqb f "E"); [reflexivity |].
  destruct (String.eqb f "").
  - destruct (advance ps) as [ps' |]; cbn [bind]; [apply IH | reflexivity].
  - destruct (tokenizer f) as [events |]; cbn [bind]; [| reflexivity].
    destruct (parse_records events (ps, [])) as [st |]; cbn [bind];
      [| reflexivity].
    destruct (advance (fst st)) as [ps' |]; cbn [bind];
      [apply IH | reflexivity].
Qed.

(** X16.  The parser stops at the fragment [E]: whatever follows it in
    the text is ignored, for every tokenizer, and a text that starts with
    the end mark is the empty chart. *)
Theorem parse_stops_at_E
    (tokenizer : string -> result (list FragmentRecord))
    (text junk : string) :
  simai_parse_chart_with tokenizer ("E," ++ junk) = Ok SimaiChart_init /\
  simai_parse_chart_with tokenizer (text ++ ",E," ++ junk)
  = simai_parse_chart_with tokenizer (text ++ ",E").
Proof.
  unfold simai_parse_chart_with. split.
  - change ("E," ++ junk)%string with ("E" ++ String "," junk)%string.
    rewrite remove_whitespace_app.
    change (remove_whitespace "E") with "E".
    change (remove_whitespace (String "," junk))
      with (String "," (remove_whitespace junk)).
    rewrite split_on_sep. reflexivity.
  - rewrite !remove_whitespace_app.
    change (remove_whitespace ",E,") with ",E,"%string.
    change (remove_whitespace ",E") with ",E"%string.
    set (t := remove_whitespace text). set (j := remove_whitespace junk).
    change (",E," ++ j)%string with (String "," ("E" ++ String "," j)).
    change ",E"%string with (String "," "E").
    rewrite !split_on_sep.
    change (split_on "," "E") with ["E"].
    change (["E"] ++ split_on "," j)%list with ("E" :: split_on "," j).
    rewrite parse_fragments_stop. reflexivity.
Qed.

(** X17.  White space is ignored wherever it stands, even inside a
    token: inserting blanks, tabs or line breaks into a text does not
    change the chart it parses to, for every tokenizer. *)
Theorem parse_ignores_whitespace
    (tokenizer : string -> result (list FragmentRecord))
    (before blank after : string) :
  remove_whitespace blank = "" ->
  simai_parse_chart_with tokenizer (before ++ blank ++ after)
  = simai_parse_chart_with tokenizer (before ++ after).
Proof.
  intros H. unfold simai_parse_chart_with.
  rewrite !remove_whitespace_app, H. reflexivity.
Qed.

Lemma parse_ignores_whitespace_witness :
  simai_parse_chart_with simai_parse_fragment
    ("(120)1" ++ String (ascii_of_nat 10) " " ++ "b,E")
  = simai_parse_chart_with simai_parse_fragment ("(120)1" ++ "b,E").
Proof. apply parse_ignores_whitespace. reflexivity. Defined.

(* ================================================================= *)
(** ** The exporter: fragments of taps *)

Ltac plain_tap_cases n H :=
  destruct n as [m p t | | | |]; try discriminate H;
  cbn [is_plain_tap] in H;
  apply andb_true_iff in H; destruct H as [H Ht];
  apply andb_true_iff in H; destruct H as [Hp0 Hp7];
  apply Z.leb_le in Hp0, Hp7;
  lane_cases p; destruct t; try discriminate Ht.

Lemma fragment_taps_plain (taps : list SimaiNote) :
  forall (fragment : string) (counter : Z),
  forallb is_plain_tap taps = true ->
  fragment_taps [] taps fragment counter
  = ((fragment ++ taps_text counter taps)%string,
     counter + Z.of_nat (List.length taps)).
Proof.
  induction taps as [| n taps IH]; intros fragment counter H.
  - cbn. rewrite append_nil_r, Z.add_0_r. reflexivity.
  - cbn [forallb] in H. apply andb_true_iff in H. destruct H as [Hn Hl].
    cbn [fragment_taps taps_text List.length].
    replace (counter + Z.of_nat (S (List.length taps)))
      with (counter + 1 + Z.of_nat (List.length taps)) by lia.
    assert (Hstep :
      forall X : string * Z,
        fragment_taps [] taps
          (fragment ++ slash counter ++ tap_token n)%string (counter + 1) = X ->
        (if NoteType_in (note_type n) [tap; break_tap; ex_tap]
         then fragment_taps [] taps
                (fragment ++ slash counter ++ str_int (position n + 1)
                 ++ (if NoteType_eqb (note_type n) break_tap then "b"
                     else if NoteType_eqb (note_type n) ex_tap then "x"
                     else ""))%string (counter + 1)
         else if NoteType_in (note_type n) [star; break_star; ex_star]
         then match filter (fun slide => position slide =? position n) []
              with
              | _ :: _ => fragment_taps [] taps fragment counter
              | [] => fragment_taps [] taps
                 (fragment ++ slash counter ++ str_int (position n + 1)
                  ++ (if NoteType_eqb (note_type n) break_star then "b$"
                      else if NoteType_eqb (note_type n) ex_star then "x$"
                      else "$"))%string (counter + 1)
              end
         else fragment_taps [] taps fragment (counter + 1)) = X).
    { intros X HX. unfold tap_token in HX.
      destruct n as [m p t | | | |]; try discriminate Hn.
      cbn [is_plain_tap] in Hn. apply andb_true_iff in Hn.
      destruct Hn as [_ Ht]. cbn [note_type position] in *.
      destruct t; try discriminate Ht; exact HX. }
    apply Hstep. rewrite IH by exact Hl.
    rewrite !append_assoc. reflexivity.
Qed.

(** The text of the taps is their tokens joined by slashes. *)
Lemma taps_text_concat (taps : list SimaiNote) :
  taps_text 0 taps = String.concat "/" (map tap_token taps).
Proof.
  assert (H : forall l c, 0 < c ->
            taps_text c l
            = String.concat "" (map (fun n => "/" ++ tap_token n)%string l)).
  { induction l as [| n l IH]; intros c Hc; [reflexivity |].
    cbn [taps_text map]. unfold slash.
    replace (c >? 0) with true by (symmetry; apply Z.gtb_lt; lia).
    rewrite (IH (c + 1)) by lia.
    destruct l; cbn; rewrite ?append_nil_r; reflexivity. }
  destruct taps as [| n l]; [reflexivity |].
  cbn [taps_text map]. change (slash 0) with "". rewrite (H l (0 + 1)) by lia.
  clear H. revert n. induction l as [| n' l IH]; intros n.
  - cbn. rewrite append_nil_r. reflexivity.
  - cbn [map String.concat]. cbn [map String.concat] in IH.
    rewrite <- (IH n'). destruct l; cbn; rewrite ?append_nil_r; reflexivity.
Qed.

Lemma events_bpms_app (a b : list ChartEvent) :
  events_bpms (a ++ b) = (events_bpms a ++ events_bpms b)%list.
Proof.
  induction a as [| [n | e] a IH]; cbn; [reflexivity | exact IH |].
  rewrite IH. reflexivity.
Qed.

Lemma events_notes_app (keep : SimaiNote -> bool) (a b : list ChartEvent) :
  events_notes keep (a ++ b)
  = (events_notes keep a ++ events_notes keep b)%list.
Proof.
  induction a as [| [n | e] a IH]; cbn; [reflexivity | | exact IH].
  destruct (keep n); cbn; rewrite IH; reflexivity.
Qed.

Lemma events_of_markers (keep : SimaiNote -> bool) (l : list BPMEvent) :
  events_bpms (map BpmEvent l) = l /\ events_notes keep (map BpmEvent l) = [].
Proof.
  induction l as [| e l [IH1 IH2]]; cbn; [split; reflexivity |].
  rewrite IH1, IH2. split; reflexivity.
Qed.

Lemma events_of_notes (keep : SimaiNote -> bool) (l : list SimaiNote) :
  events_bpms (map NoteEvent l) = [] /\
  events_notes keep (map NoteEvent l) = filter keep l.
Proof.
  induction l as [| n l [IH1 IH2]]; cbn; [split; reflexivity |].
  rewrite IH1, IH2. split; reflexivity.
Qed.

Lemma filter_all_true {A : Type} (l : list A) :
  filter (fun _ => true) l = l.
Proof. induction l as [| a l IH]; cbn; [| rewrite IH]; reflexivity. Qed.

Lemma plain_taps_filter (taps : list SimaiNote) :
  forallb is_plain_tap taps = true ->
  filter is_tap_note taps = taps /\
  filter is_hold_note taps = [] /\
  filter is_touch_tap_note taps = [] /\
  filter is_touch_hold_note taps = [] /\
  filter is_slide_note taps = [] /\
  filter is_hold_slide taps = [].
Proof.
  induction taps as [| n l IH]; intros H; [repeat split; reflexivity |].
  cbn [forallb] in H. apply andb_true_iff in H. destruct H as [Hn Hl].
  destruct (IH Hl) as (I1 & I2 & I3 & I4 & I5 & I6).
  plain_tap_cases n Hn; cbn; rewrite ?I1, ?I2, ?I3, ?I4, ?I5, ?I6;
    repeat split; reflexivity.
Qed.

(** The notes of events that are all taps, seen by each of the filters
    of [simai_convert_to_fragment]. *)
Lemma tap_events_notes (events : list ChartEvent) :
  forallb is_plain_tap (events_notes (fun _ => true) events) = true ->
  events_notes is_tap_note events = events_notes (fun _ => true) events /\
  events_notes is_hold_note events = [] /\
  events_notes is_touch_tap_note events = [] /\
  events_notes is_touch_hold_note events = [] /\
  events_notes is_slide_note events = [].
Proof.
  induction events as [| [n | e] l IH]; intros H;
    [repeat split; reflexivity | | exact (IH H)].
  cbn [events_notes] in H. cbn [forallb] in H.
  apply andb_true_iff in H. destruct H as [Hn Hl].
  destruct (IH Hl) as (I1 & I2 & I3 & I4 & I5).
  plain_tap_cases n Hn; cbn; rewrite ?I1, ?I2, ?I3, ?I4, ?I5;
    repeat split; reflexivity.
Qed.

Lemma fragment_of_tap_events (events : list ChartEvent)
    (current_bpm : option PyNum) (divisor : option Z) :
  events <> [] ->
  forallb is_plain_tap (events_notes (fun _ => true) events) = true ->
  (List.length (events_bpms events) <= 1)%nat ->
  simai_convert_to_fragment events current_bpm divisor
  = Ok (tempo_text (events_bpms events) ++ divisor_text divisor
        ++ String.concat "/"
             (map tap_token (events_notes (fun _ => true) events)))%string.
Proof.
  intros Hne Htaps Hlen. unfold simai_convert_to_fragment.
  destruct events as [| ev evs] eqn:E; [contradiction Hne; reflexivity |].
  rewrite <- E in *. clear E ev evs Hne.
  destruct (tap_events_notes events Htaps) as (I1 & I2 & I3 & I4 & I5).
  rewrite I1, I2, I3, I4, I5. cbn [py_sorted].
  set (markers := events_bpms events) in *.
  set (taps := events_notes (fun _ => true) events) in *.
  assert (Hm : (match markers with
                | [] => Ok ""
                | [b] => Ok ("(" ++ str_num (bpm b) ++ ")")%string
                | _ => Raise (Exception "Multiple BPM defined at same measure")
                end) = Ok (tempo_text markers)).
  { destruct markers as [| b [| b' l]]; try reflexivity.
    cbn [List.length] in Hlen. lia. }
  rewrite Hm. cbn [bind].
  assert (Hd : match divisor with
               | Some d => (tempo_text markers ++ "{" ++ str_int d ++ "}")%string
               | None => tempo_text markers
               end = (tempo_text markers ++ divisor_text divisor)%string).
  { destruct divisor; cbn [divisor_text];
      [reflexivity | rewrite append_nil_r; reflexivity]. }
  rewrite Hd. rewrite fragment_taps_plain by exact Htaps.
  cbn [fragment_holds bind fst snd fragment_touch_taps
       fragment_touch_holds fragment_slides].
  rewrite taps_text_concat, append_assoc. reflexivity.
Qed.

(** The same for the events as [export] lists them: the notes, then the
    tempo markers. *)
Lemma fragment_of_taps (taps : list SimaiNote)
    (markers : list BPMEvent) (current_bpm : option PyNum)
    (divisor : option Z) :
  forallb is_plain_tap taps = true ->
  (List.length markers <= 1)%nat ->
  taps <> [] \/ markers <> [] ->
  simai_convert_to_fragment (map NoteEvent taps ++ map BpmEvent markers)
                            current_bpm divisor
  = Ok (tempo_text markers ++ divisor_text divisor
        ++ String.concat "/" (map tap_token taps))%string.
Proof.
  intros Htaps Hlen Hne.
  assert (En : events_notes (fun _ => true)
                 (map NoteEvent taps ++ map BpmEvent markers) = taps).
  { rewrite events_notes_app.
    rewrite (proj2 (events_of_notes _ taps)).
    rewrite (proj2 (events_of_markers _ markers)).
    rewrite app_nil_r. apply filter_all_true. }
  assert (Eb : events_bpms (map NoteEvent taps ++ map BpmEvent markers)
               = markers).
  { rewrite events_bpms_app.
    rewrite (proj1 (events_of_notes (fun _ => true) taps)).
    rewrite (proj1 (events_of_markers (fun _ => true) markers)).
    reflexivity. }
  rewrite <- En at 2. rewrite <- Eb at 2.
  apply fragment_of_tap_events.
  - intros E. apply app_eq_nil in E. destruct E as [E1 E2].
    apply map_eq_nil in E1, E2. destruct Hne as [H | H]; contradiction.
  - rewrite En. exact Htaps.
  - rewrite Eb. exact Hlen.
Qed.

(** X18.  A fragment of taps: for a non-empty list of events, in any
    order, whose notes are taps on lanes 0..7 and that holds at most one
    tempo marker, [simai_convert_to_fragment] writes the tempo in
    parentheses, the divisor in braces, then one token for each tap in
    the order of the list, joined by slashes: the lane counted from 1,
    followed by [b], [x], [$], [b$] or [x$]. *)
Theorem simai_convert_to_fragment_taps (events : list ChartEvent)
    (current_bpm : option PyNum) (divisor : option Z) :
  events <> [] ->
  forallb is_plain_tap (events_notes (fun _ => true) events) = true ->
  (List.length (events_bpms events) <= 1)%nat ->
  simai_convert_to_fragment events current_bpm divisor
  = Ok (tempo_text (events_bpms events) ++ divisor_text divisor
        ++ String.concat "/"
             (map tap_token (events_notes (fun _ => true) events)))%string.
Proof. apply fragment_of_tap_events. Qed.

Lemma simai_convert_to_fragment_taps_witness :
  simai_convert_to_fragment
    [NoteEvent (TapNote 1 0 tap); BpmEvent (mkBPM 1 (PyInt 120));
     NoteEvent (TapNote 1 4 break_star)] (Some (PyInt 120)) (Some 4)
  = Ok "(120){4}1/5b$".
Proof.
  apply (simai_convert_to_fragment_taps
           [NoteEvent (TapNote 1 0 tap); BpmEvent (mkBPM 1 (PyInt 120));
            NoteEvent (TapNote 1 4 break_star)] (Some (PyInt 120)) (Some 4)).
  - discriminate.
  - reflexivity.
  - cbn. lia.
Defined.

(** X19.  [simai_convert_to_fragment] writes nothing for an empty list of
    events, not even the divisor, and raises as soon as the events hold
    two tempo markers or more, whatever the notes. *)
Theorem simai_convert_to_fragment_edges (events : list ChartEvent)
    (current_bpm : option PyNum) (divisor : option Z) :
  simai_convert_to_fragment [] current_bpm divisor = Ok "" /\
  ((2 <= List.length (events_bpms events))%nat ->
   simai_convert_to_fragment events current_bpm divisor
   = Raise (Exception "Multiple BPM defined at same measure")).
Proof.
  split; [reflexivity |]. intros H. unfold simai_convert_to_fragment.
  destruct events as [| ev evs]; [cbn in H; lia |].
  destruct (events_bpms (ev :: evs)) as [| b [| b' l]];
    cbn [List.length] in H; try lia.
  reflexivity.
Qed.

Lemma simai_convert_to_fragment_edges_witness :
  simai_convert_to_fragment
    [BpmEvent (mkBPM 1 (PyInt 120)); NoteEvent (TapNote 1 0 tap);
     BpmEvent (mkBPM 1 (PyInt 90))] None None
  = Raise (Exception "Multiple BPM defined at same measure").
Proof.
  apply (proj2 (simai_convert_to_fragment_edges
                  [BpmEvent (mkBPM 1 (PyInt 120)); NoteEvent (TapNote 1 0 tap);
                   BpmEvent (mkBPM 1 (PyInt 90))] None None)).
  cbn. lia.
Defined.

(* ================================================================= *)
(** ** The exporter: a chart whose events all lie at the first measure *)

Lemma py_int_one (x : Q) : (x == 1)%Q -> py_int x = 1.
Proof.
  unfold Qeq, py_int. cbn [Qnum Qden]. intros E.
  replace (Qnum x) with (Z.pos (Qden x)) by lia.
  apply Z.quot_same. lia.
Qed.

(** The distinct measures of events that all lie at one measure. *)
Lemma sorted_set_single (l : list Q) (q : Q) :
  l <> [] -> (forall x, In x l -> (x == q)%Q) ->
  exists x, sorted_set l = [x] /\ (x == q)%Q.
Proof.
  induction l as [| a l IH]; intros Hne Hall; [contradiction Hne; reflexivity |].
  cbn [sorted_set]. destruct l as [| a' l'].
  - exists a. split; [reflexivity | apply Hall; left; reflexivity].
  - destruct IH as (x & -> & Ex);
      [discriminate | intros y Hy; apply Hall; right; exact Hy |].
    exists x. split; [| exact Ex]. cbn [set_insert].
    replace (Qeq_bool a x) with true; [reflexivity |].
    symmetry. apply Qeq_bool_iff. rewrite Ex. apply Hall. left. reflexivity.
Qed.

Lemma filter_all {A : Type} (f : A -> bool) (l : list A) :
  (forall a, In a l -> f a = true) -> filter f l = l.
Proof.
  induction l as [| a l IH]; intros H; [reflexivity |].
  cbn [filter]. rewrite (H a (or_introl eq_refl)). f_equal.
  apply IH. intros b Hb. apply H. right. exact Hb.
Qed.

Lemma export_first_measure (taps : list SimaiNote) (mb : Q) (b : PyNum) :
  forallb is_plain_tap taps = true ->
  (forall n, In n taps -> (measure n == 1)%Q) -> (mb == 1)%Q ->
  export (mkChart taps [mkBPM mb b])
  = Ok ("(" ++ str_num b ++ ")" ++ String.concat "/" (map tap_token taps)
        ++ "," ++ newline ++ "E")%string.
Proof.
  intros Htaps Hm Hb. unfold export. cbn [notes bpms List.length Nat.eqb].
  assert (Hget : forall q, (q == 1)%Q ->
            get_bpm (mkChart taps [mkBPM mb b]) q = Some b).
  { intros q Eq. unfold get_bpm.
    cbn [bpms map bpm_measure sorted_set set_insert get_bpm_scan].
    replace (Qle_bool mb q) with true
      by (symmetry; apply Qle_bool_iff; rewrite Hb, Eq; apply Qle_refl).
    cbn [filter bpm_measure].
    replace (Qeq_bool mb mb) with true
      by (symmetry; apply Qeq_bool_iff; reflexivity).
    reflexivity. }
  rewrite (Hget 1%Q ltac:(reflexivity)).
  destruct (sorted_set_single (map measure taps ++ map bpm_measure [mkBPM mb b]) 1%Q)
    as (x & -> & Ex).
  { intros E. apply app_eq_nil in E. destruct E as [_ E]. discriminate E. }
  { intros y Hy. apply in_app_or in Hy. destruct Hy as [Hy | [<- | []]].
    - apply in_map_iff in Hy. destruct Hy as (n & <- & Hn). exact (Hm n Hn).
    - exact Hb. }
  cbn [export_loop List.hd_error]. unfold export_step.
  cbn [notes bpms filter bpm_measure previous_measure_whole
       slide_hold_last_end_measure previous_divisor export_result].
  replace (Qeq_bool mb x) with true
    by (symmetry; apply Qeq_bool_iff; rewrite Hb, Ex; reflexivity).
  rewrite (filter_all (fun n => Qeq_bool (measure n) x) taps)
    by (intros n Hn; apply Qeq_bool_iff; rewrite (Hm n Hn), Ex; reflexivity).
  destruct (plain_taps_filter taps Htaps) as (_ & _ & _ & _ & _ & I6).
  rewrite I6. cbn [last_end_measure bind].
  rewrite (py_int_one x Ex). cbn [Z.gtb Z.compare Pos.compare Pos.compare_cont].
  replace (Qlt_bool x 1) with false
    by (symmetry; apply Qlt_bool_false; rewrite Ex; apply Qle_refl).
  cbn [bind option_Z_eqb negb].
  rewrite (fragment_of_taps taps [mkBPM mb b] (get_bpm _ x) None Htaps);
    [| cbn; lia | right; discriminate].
  cbn [bind tempo_text divisor_text bpm export_result].
  cbn [append]. rewrite !append_assoc. reflexivity.
Qed.

(** X20.  A chart with one tempo marker at measure 1 and taps on lanes
    0..7 that all lie at measure 1 exports to a single fragment: the
    tempo in parentheses and the tokens of the taps joined by slashes,
    followed by a comma, a line break and the end mark [E]. *)
Theorem export_single_measure (taps : list SimaiNote) (mb : Q) (b : PyNum) :
  forallb is_plain_tap taps = true ->
  (forall n, In n taps -> (measure n == 1)%Q) -> (mb == 1)%Q ->
  export (mkChart taps [mkBPM mb b])
  = Ok ("(" ++ str_num b ++ ")" ++ String.concat "/" (map tap_token taps)
        ++ "," ++ newline ++ "E")%string.
Proof. apply export_first_measure. Qed.

Lemma export_single_measure_witness :
  export (mkChart [TapNote 1 2 tap; TapNote 1 7 ex_tap] [mkBPM 1 (PyInt 150)])
  = Ok ("(" ++ str_num (PyInt 150) ++ ")"
        ++ String.concat "/"
             (map tap_token [TapNote 1 2 tap; TapNote 1 7 ex_tap])
        ++ "," ++ newline ++ "E")%string.
Proof.
  apply export_single_measure.
  - reflexivity.
  - intros n [<- | [<- | []]]; reflexivity.
  - reflexivity.
Defined.

(* ================================================================= *)
(** ** Export and parse: a chart whose events all lie at the first measure *)













